(** * Layered configuration loader and skill scaffolder

    A shallow embedding of [pyconfig-helper/reference/settings.py] and
    [skill-scaffolder/scripts/generate_skill.py], and the properties of
    the two programs stated over it. *)

From Stdlib Require Import ZArith NArith String Ascii.
From Stdlib Require Import DecimalString DecimalPos DecimalZ.
From stdpp Require Import gmap list.

Set Warnings "-register-all".

Local Open Scope Z_scope.

(** ** Python data *)

Module Py.

(** A Python [str] is a sequence of Unicode code points; [len] counts
    code points, so the Chinese descriptions the scaffolder is used with
    are measured the way Python measures them. *)
Abbreviation pystr := (list N).

(** An ASCII literal as a Python string. *)
Definition py (s : string) : pystr :=
  (fun a : ascii => N_of_ascii a) <$> list_ascii_of_string s.

(** The values the loader handles: what [yaml.safe_load] produces
    (floats apart, which every function below treats like the other
    scalars) and, for caller supplied keyword data, an object that is not
    a [dict]: an already built schema-model instance with its attributes.
    A [dict] keeps its entries in insertion order. *)
Inductive value : Type :=
| VNone
| VBool (b : bool)
| VInt (z : Z)
| VStr (s : pystr)
| VList (l : list value)
| VDict (d : list (pystr * value))
| VModel (d : list (pystr * value)).

Definition dict : Type := list (pystr * value).

(** [key in d] and [d[key]] (the latter as an option), for a dict
    whose values are of type [A]. *)
Fixpoint dict_get {A : Type} (key : pystr) (d : list (pystr * A)) : option A :=
  match d with
  | [] => None
  | (k, v) :: d' => if decide (k = key) then Some v else dict_get key d'
  end.

Definition dict_contains {A : Type} (key : pystr) (d : list (pystr * A)) : bool :=
  match dict_get key d with Some _ => true | None => false end.

(** [d[key] = v]: an existing key keeps its position, a new key is
    appended. *)
Fixpoint dict_set {A : Type} (key : pystr) (v : A) (d : list (pystr * A))
    : list (pystr * A) :=
  match d with
  | [] => [(key, v)]
  | (k, w) :: d' =>
      if decide (k = key) then (k, v) :: d' else (k, w) :: dict_set key v d'
  end.

(** [isinstance(v, dict)]. *)
Definition is_dict (v : value) : bool :=
  match v with VDict _ => true | _ => false end.

(** Truth value of an object, as [if x:] and [x if x else y] test it. *)
Definition truthy (v : value) : bool :=
  match v with
  | VNone => false
  | VBool b => b
  | VInt z => negb (z =? 0)
  | VStr s => negb (bool_decide (s = []))
  | VList l => negb (bool_decide (length l = 0%nat))
  | VDict d => negb (bool_decide (length d = 0%nat))
  | VModel _ => true
  end.

(** The keys of a Python [dict] are pairwise distinct, at every depth. *)
Fixpoint wf_value (v : value) : bool :=
  match v with
  | VList l => forallb wf_value l
  | VDict d | VModel d =>
      bool_decide (NoDup (d.*1)) && forallb (fun kv => wf_value (snd kv)) d
  | _ => true
  end.

Definition wf_dict (d : dict) : bool := wf_value (VDict d).

(** Chained subscripts [v[k1][k2]...] through nested dicts: the value at
    a key path, if every key on the way is there. *)
Fixpoint get_path (keys : list pystr) (v : value) : option value :=
  match keys with
  | [] => Some v
  | key :: keys' =>
      match v with
      | VDict d =>
          match dict_get key d with
          | Some v' => get_path keys' v'
          | None => None
          end
      | _ => None
      end
  end.


(** Outcome of a call that may raise. *)
Inductive exn : Type :=
| OSError | FileExistsError | FileNotFoundError | NotADirectoryError
| IsADirectoryError | YAMLError | AttributeError | TypeError | ValueError
| ValidationError | RuntimeError | RecursionError.

Inductive result (A : Type) : Type :=
| Ok (a : A)
| Raise (e : exn).
Arguments Ok {A} a.
Arguments Raise {A} e.

Definition bind {A B : Type} (r : result A) (k : A -> result B) : result B :=
  match r with Ok a => k a | Raise e => Raise e end.

Notation "x <- r ;; k" := (bind r (fun x => k))
  (at level 100, r at next level, right associativity).

(** [str.isspace] on one character: the code points [str.strip()]
    removes. *)
Definition isspace (c : N) : bool :=
  ((9 <=? c) && (c <=? 13) || (28 <=? c) && (c <=? 32)
   || (c =? 133) || (c =? 160) || (c =? 5760)
   || (8192 <=? c) && (c <=? 8202)
   || (c =? 8232) || (c =? 8233) || (c =? 8239) || (c =? 8287)
   || (c =? 12288))%N.

Fixpoint lstrip (s : pystr) : pystr :=
  match s with
  | c :: s' => if isspace c then lstrip s' else s
  | [] => []
  end.

Definition rstrip (s : pystr) : pystr := reverse (lstrip (reverse s)).

(** [s.strip()]. *)
Definition strip (s : pystr) : pystr := rstrip (lstrip s).

(** [c in s] for a one-character [c]. *)
Definition contains_char (c : N) (s : pystr) : bool := existsb (N.eqb c) s.

(** [s.startswith(c)] for a one-character [c]. *)
Definition startswith_char (c : N) (s : pystr) : bool :=
  match s with c' :: _ => (c' =? c)%N | [] => false end.

(** [s.split(c, 1)] when [c] occurs in [s]: the text before the first
    [c] and the text after it. *)
Fixpoint split_first (c : N) (s : pystr) : option (pystr * pystr) :=
  match s with
  | [] => None
  | c' :: s' =>
      if (c' =? c)%N then Some ([], s')
      else match split_first c s' with
           | Some (before, after) => Some (c' :: before, after)
           | None => None
           end
  end.

(** What a path names, for a reader that sees a file as an [A]:
    [exists()] holds for both, [open()] raises on a directory. *)
Inductive entry (A : Type) : Type :=
| Directory
| File (content : A).
Arguments Directory {A}.
Arguments File {A} content.

End Py.

Import Py.

(** ** settings.py *)

Module Settings.

(** One iteration of the loop of [deep_merge], with the recursive call
    taken as [rec]:
      if key in result and isinstance(result[key], dict)
                       and isinstance(value, dict):
          result[key] = deep_merge(result[key], value)
      else:
          result[key] = value *)
Definition merge_step (rec : dict -> dict -> dict)
    (result : dict) (item : pystr * value) : dict :=
  let (key, v) := item in
  match dict_get key result, v with
  | Some (VDict r), VDict o => dict_set key (VDict (rec r o)) result
  | _, _ => dict_set key v result
  end.

(** The recursion of [deep_merge] descends into the values of
    [override]; it is written on the value that holds the override
    mapping, which is what makes it structural. *)
Fixpoint deep_merge_value (base : dict) (override : value) {struct override} : dict :=
  match override with
  | VDict items =>
      (fix loop (result : dict) (items : list (pystr * value)) {struct items} : dict :=
         match items with
         | [] => result
         | (key, v) :: items' =>
             loop
               match dict_get key result, v with
               | Some (VDict r), VDict _ =>
                   dict_set key (VDict (deep_merge_value r v)) result
               | _, _ => dict_set key v result
               end
               items'
         end) base items
  | _ => base
  end.

(** [deep_merge(base, override)]: [result = base.copy()], then one
    assignment to [result] per item of [override], in order. *)
Definition deep_merge (base override : dict) : dict :=
  deep_merge_value base (VDict override).

(** [deep_merge] as Python runs it on arbitrary objects, which is how
    [load_merged_config] calls it: [base.copy()] needs a dict or a list,
    [override.items()] needs a dict, and an assignment [result[key] = _]
    with a string key needs [result] to be a dict. *)
Definition deep_merge_call (base override : value) : result value :=
  match base, override with
  | VDict b, VDict o => Ok (VDict (deep_merge b o))
  | VList l, VDict [] => Ok (VList l)
  | VList _, VDict (_ :: _) => Raise TypeError
  | _, _ => Raise AttributeError
  end.

(** *** The process environment *)

(** [os.environ] on a POSIX system: a mapping from names to values. *)
Abbreviation environ := (gmap pystr pystr).

(** [os.getenv(key, default)]. *)
Definition getenv (env : environ) (key : pystr) (default : pystr) : pystr :=
  match env !! key with Some v => v | None => default end.

(** [os.environ[key] = value]: the operating system takes no NUL in a
    name or a value, and no empty name. *)
Definition putenv (key v : pystr) (env : environ) : result environ :=
  if contains_char 0 key || contains_char 0 v then Raise ValueError
  else if bool_decide (key = []) then Raise OSError
  else Ok (<[key := v]> env).

(** [os.environ.setdefault(key, value)]. *)
Definition setdefault (key v : pystr) (env : environ) : result environ :=
  match env !! key with
  | Some _ => Ok env
  | None => putenv key v env
  end.

(** *** .env file *)

(** The filter and the split of one line of [load_dotenv]: the key and
    the value the line binds, if it binds any. *)
Definition parse_line (line : pystr) : option (pystr * pystr) :=
  let line := strip line in
  if negb (bool_decide (line = [])) && negb (startswith_char 35 line)
     && contains_char 61 line
  then match split_first 61 line with
       | Some (key, v) => Some (strip key, strip v)
       | None => None
       end
  else None.

Definition load_line (env : environ) (line : pystr) : result environ :=
  match parse_line line with
  | Some (key, v) => setdefault key v env
  | None => Ok env
  end.

Fixpoint load_lines (lines : list pystr) (env : environ) : result environ :=
  match lines with
  | [] => Ok env
  | line :: lines' => env' <- load_line env line ;; load_lines lines' env'
  end.

(** [load_dotenv(env_file)]; a file is the list of its lines, as
    iterating over it yields them. *)
Definition load_dotenv (fs : gmap pystr (entry (list pystr)))
    (env_file : pystr) (env : environ) : result environ :=
  match fs !! env_file with
  | None => Ok env
  | Some Directory => Raise OSError
  | Some (File lines) => load_lines lines env
  end.

(** *** YAML layers *)

(** A YAML file is what [yaml.safe_load] makes of it: a document, or
    [None] when the text is not YAML and the parser raises. *)
Abbreviation yaml_files := (gmap pystr (entry (option value))).

(** Every document is a Python value. *)
Definition wf_entry (e : entry (option value)) : bool :=
  match e with File (Some v) => wf_value v | _ => true end.

Definition wf_files (fs : yaml_files) : Prop :=
  map_Forall (fun _ e => wf_entry e = true) fs.

(** [load_yaml_file(file_path)]. *)
Definition load_yaml_file (fs : yaml_files) (file_path : option pystr) : result value :=
  match file_path with
  | None | Some [] => Ok (VDict [])
  | Some path =>
      match fs !! path with
      | None => Ok (VDict [])
      | Some Directory => Raise OSError
      | Some (File None) => Raise YAMLError
      | Some (File (Some config)) =>
          Ok (if truthy config then config else VDict [])
      end
  end.

(** [load_merged_config()]. *)
Definition load_merged_config (env : environ) (fs : yaml_files) : result value :=
  let base_path := getenv env (py "CONFIG_BASE_PATH") [] in
  let env_path := getenv env (py "CONFIG_ENV_PATH") [] in
  base_config <- load_yaml_file fs (Some base_path) ;;
  env_config <- load_yaml_file fs (Some env_path) ;;
  deep_merge_call base_config env_config.

(** *** Settings *)

(** One of the four blocks of [Settings.__init__]:
      if section in yaml_config and section not in data:
          data[section] = yaml_config[section]
    [yaml_config] is a dict or, after a YAML file that holds a
    sequence, a list: there [in] compares elements and the subscript
    raises. *)
Definition adopt_section (yaml_config : value) (section : pystr) (data : dict)
    : result dict :=
  match yaml_config with
  | VDict y =>
      match dict_get section y with
      | Some v => Ok (if dict_contains section data then data
                      else dict_set section v data)
      | None => Ok data
      end
  | VList l =>
      if existsb (fun x => match x with VStr s => bool_decide (s = section) | _ => false end) l
         && negb (dict_contains section data)
      then Raise TypeError else Ok data
  | _ => Ok data
  end.

(** [Settings._apply_env_overrides(data)]. *)
Definition _apply_env_overrides (env : environ) (data : dict) : dict :=
  match env !! py "DATABASE_PASSWORD" with
  | Some (c :: pw) =>
      let data :=
        if dict_contains (py "database") data then data
        else dict_set (py "database") (VDict []) data in
      match dict_get (py "database") data with
      | Some (VDict db) =>
          dict_set (py "database")
            (VDict (dict_set (py "password") (VStr (c :: pw)) db)) data
      | _ => data
      end
  | _ => data
  end.

(** The first part of [Settings.__init__]: the keyword data once the
    sections of the YAML layers are taken over. *)
Definition Settings_sections (env : environ) (fs : yaml_files) (data : dict)
    : result dict :=
  yaml_config <- load_merged_config env fs ;;
  if truthy yaml_config then
    data <- adopt_section yaml_config (py "database") data ;;
    data <- adopt_section yaml_config (py "api") data ;;
    data <- adopt_section yaml_config (py "app") data ;;
    adopt_section yaml_config (py "logging") data
  else Ok data.

(** The keyword data [Settings.__init__] hands to [super().__init__]. *)
Definition Settings_data (env : environ) (fs : yaml_files) (data : dict)
    : result dict :=
  data <- Settings_sections env fs data ;;
  Ok (_apply_env_overrides env data).

(** [BaseSettings.__init__] of pydantic-settings combines its sources
    with the library's [deep_update], which is the algorithm of
    [deep_merge]; keyword data is the source of highest priority, over
    what the library itself reads from environment variables, the dotenv
    file and secrets, here [sources]. The result is the input of the
    schema. *)
Definition Settings_state (sources : dict) (env : environ) (fs : yaml_files)
    (data : dict) : result dict :=
  data <- Settings_data env fs data ;;
  Ok (deep_merge sources data).

(** The value a field of a section is built from: the section's entry
    for the field, else the field's default (also when the section is
    absent and built by [default_factory]); an instance of the section's
    model is taken as it is; anything else is not a section. *)
Definition section_field (section field : pystr) (default : value)
    (state : dict) : result value :=
  match dict_get section state with
  | None => Ok default
  | Some (VDict d) | Some (VModel d) =>
      Ok (match dict_get field d with Some v => v | None => default end)
  | Some _ => Raise ValidationError
  end.

(** [settings.database.password], [DatabaseConfig.password] having
    default [""]. *)
Definition database_password (state : dict) : result value :=
  section_field (py "database") (py "password") (VStr []) state.

(** [settings.app.max_workers], [AppConfig.max_workers] having default
    [20]. *)
Definition app_max_workers (state : dict) : result value :=
  section_field (py "app") (py "max_workers") (VInt 20) state.


(** The fields of [DatabaseConfig] once the schema has built them. *)
Record DatabaseConfig : Type := {
  host : pystr;
  port : Z;
  user : pystr;
  password : pystr
}.

(** [str(n)] for an int: its decimal digits, after a [-] when
    negative. *)
Definition str_of_int (n : Z) : pystr :=
  py (DecimalString.NilZero.string_of_int (Z.to_int n)).

(** The property [Settings.db_url]:
      f"mysql+pymysql://{user}:{password}@{host}:{port}" *)
Definition db_url (database : DatabaseConfig) : pystr :=
  py "mysql+pymysql://" ++ user database ++ py ":" ++ password database
  ++ py "@" ++ host database ++ py ":" ++ str_of_int (port database).

End Settings.


(** ** deep_merge on the object store

    Python dicts and lists are mutable objects held by reference. To
    speak of what [deep_merge] writes, the same function is given here
    over a store of objects: [base.copy()] allocates, [result[key] = _]
    updates the object [result] refers to. *)

Module Heap.

(** A value as a variable holds it: an immutable scalar, or a reference
    to an object of the store. *)
Inductive ref : Type :=
| RNone
| RBool (b : bool)
| RInt (z : Z)
| RStr (s : pystr)
| RObj (l : nat).

Inductive object : Type :=
| ODict (items : list (pystr * ref))
| OList (items : list ref)
| OModel (attrs : list (pystr * ref)).

(** The store: the object at index [l] is the one [RObj l] refers to. *)
Abbreviation heap := (list object).

(** [isinstance(r, dict)]. *)
Definition is_dict (h : heap) (r : ref) : bool :=
  match r with
  | RObj l => match h !! l with Some (ODict _) => true | _ => false end
  | _ => false
  end.

(** [result[key] = v] on the object at [result]. *)
Definition setitem (result : nat) (key : pystr) (v : ref) (h : heap)
    : heap * Py.result unit :=
  match h !! result with
  | Some (ODict r) => (<[result := ODict (dict_set key v r)]> h, Ok tt)
  | _ => (h, Raise TypeError)
  end.

(** The body of the loop for the item [(key, v)], the recursive call
    being [rec]:
      if key in result and isinstance(result[key], dict)
                       and isinstance(value, dict):
          result[key] = deep_merge(result[key], value)
      else:
          result[key] = value *)
Definition merge_item (rec : ref -> ref -> heap -> heap * Py.result ref)
    (result : nat) (key : pystr) (v : ref) (h : heap) : heap * Py.result unit :=
  match h !! result with
  | Some (ODict r) =>
      match dict_get key r with
      | Some x =>
          if is_dict h x && is_dict h v then
            match rec x v h with
            | (h, Ok merged) => setitem result key merged h
            | (h, Raise e) => (h, Raise e)
            end
          else setitem result key v h
      | None => setitem result key v h
      end
  | _ => (h, Raise TypeError)
  end.

(** [for key, value in override.items()], from the item of index [i] on,
    [n] items being left: the iterator reads the dict as it is when each
    item is fetched, and raises if its size has changed. *)
Fixpoint merge_items (rec : ref -> ref -> heap -> heap * Py.result ref)
    (result override : nat) (size i n : nat) (h : heap) : heap * Py.result unit :=
  match n with
  | O => (h, Ok tt)
  | S n =>
      match h !! override with
      | Some (ODict o) =>
          if bool_decide (length o = size) then
            match o !! i with
            | Some (key, v) =>
                match merge_item rec result key v h with
                | (h, Ok _) => merge_items rec result override size (S i) n h
                | (h, Raise e) => (h, Raise e)
                end
            | None => (h, Ok tt)
            end
          else (h, Raise RuntimeError)
      | _ => (h, Raise RuntimeError)
      end
  end.

(** [deep_merge(base, override)] on references, [depth] being how many
    nested calls the interpreter still allows. The copy of [base] is the
    new object [length h]. *)
Fixpoint deep_merge (depth : nat) (base override : ref) (h : heap)
    : heap * Py.result ref :=
  match depth with
  | O => (h, Raise RecursionError)
  | S depth =>
      match base with
      | RObj lb =>
          match h !! lb with
          | Some (ODict b) =>
              let result := length h in
              let h := h ++ [ODict b] in
              match override with
              | RObj lo =>
                  match h !! lo with
                  | Some (ODict o) =>
                      match merge_items (deep_merge depth) result lo
                              (length o) 0 (length o) h with
                      | (h, Ok _) => (h, Ok (RObj result))
                      | (h, Raise e) => (h, Raise e)
                      end
                  | _ => (h, Raise AttributeError)
                  end
              | _ => (h, Raise AttributeError)
              end
          | Some (OList b) =>
              let result := length h in
              let h := h ++ [OList b] in
              match override with
              | RObj lo =>
                  match h !! lo with
                  | Some (ODict []) => (h, Ok (RObj result))
                  | Some (ODict (_ :: _)) => (h, Raise TypeError)
                  | _ => (h, Raise AttributeError)
                  end
              | _ => (h, Raise AttributeError)
              end
          | _ => (h, Raise AttributeError)
          end
      | _ => (h, Raise AttributeError)
      end
  end.

(** The object graph under a reference, read as a value, the objects
    read being among those [P] holds of. Only a store without cycles
    under the reference is the image of a value. *)
Inductive repr (P : nat -> Prop) (h : heap) : ref -> value -> Prop :=
| repr_none : repr P h RNone VNone
| repr_bool b : repr P h (RBool b) (VBool b)
| repr_int z : repr P h (RInt z) (VInt z)
| repr_str s : repr P h (RStr s) (VStr s)
| repr_list l rs vs :
    P l -> h !! l = Some (OList rs) ->
    Forall2 (repr P h) rs vs ->
    repr P h (RObj l) (VList vs)
| repr_dict l rd d :
    P l -> h !! l = Some (ODict rd) ->
    Forall2 (fun x y => fst x = fst y /\ repr P h (snd x) (snd y)) rd d ->
    repr P h (RObj l) (VDict d)
| repr_model l rd d :
    P l -> h !! l = Some (OModel rd) ->
    Forall2 (fun x y => fst x = fst y /\ repr P h (snd x) (snd y)) rd d ->
    repr P h (RObj l) (VModel d).

(** [r] holds the value [v] in the store [h]. *)
Definition represents (h : heap) (r : ref) (v : value) : Prop :=
  repr (fun _ => True) h r v.

(** Every object of [h] is in [h'] as it was. *)
Definition preserved (h h' : heap) : Prop :=
  forall l obj, h !! l = Some obj -> h' !! l = Some obj.

(** Nesting depth of the dicts of a value, through dict values only:
    the recursion of [deep_merge] does not enter lists. *)
Fixpoint nesting (v : value) : nat :=
  match v with
  | VDict d => S (foldr (fun kv n => Nat.max (nesting (snd kv)) n) O d)
  | _ => O
  end.

End Heap.

(** ** generate_skill.py *)

Module GenerateSkill.

(** The second component of what the validators return. *)
Inductive message : Type :=
| MsgOK
| NameEmpty
| NameTooLong (len : nat)
| NameBadChars
| DescriptionEmpty
| DescriptionTooLong (len : nat)
| DescriptionXmlTag.

(** The class [[a-z0-9-]]. *)
Definition name_char (c : N) : bool :=
  ((97 <=? c) && (c <=? 122) || (48 <=? c) && (c <=? 57) || (c =? 45))%N.

(** [re.match(r'^[a-z0-9-]+$', s)]; [$] also matches before a newline
    that ends the string. *)
Fixpoint name_pattern (s : pystr) : bool :=
  match s with
  | [] => false
  | c :: s' =>
      name_char c
      && (bool_decide (s' = []) || bool_decide (s' = [10%N]) || name_pattern s')
  end.

(** [re.search(r'<[^>]+>', s)]: some [<], then a character other than
    [>], then a [>] further on. *)
Fixpoint xml_tag (s : pystr) : bool :=
  match s with
  | [] => false
  | c :: s' =>
      (c =? 60)%N
      && match s' with
         | c' :: s'' => negb (c' =? 62)%N && contains_char 62 s''
         | [] => false
         end
      || xml_tag s'
  end.

Definition validate_name (name : pystr) : bool * message :=
  if bool_decide (name = []) then (false, NameEmpty)
  else if bool_decide (64 < length name)%nat then (false, NameTooLong (length name))
  else if negb (name_pattern name) then (false, NameBadChars)
  else (true, MsgOK).

Definition validate_description (description : pystr) : bool * message :=
  if bool_decide (description = []) then (false, DescriptionEmpty)
  else if bool_decide (1024 < length description)%nat
       then (false, DescriptionTooLong (length description))
  else if xml_tag description then (false, DescriptionXmlTag)
  else (true, MsgOK).

(** *** The file system *)

(** A resolved path is the list of its components, the last one first:
    [p / name] is [name :: p], [p.parent] is the tail, the root is [[]].
    The file system maps the paths that exist to what they name. *)
Abbreviation path := (list pystr).
Abbreviation fsys := (gmap (list pystr) (entry pystr)).

(** [p.exists()]. *)
Definition exists_ (fs : fsys) (p : path) : bool :=
  match fs !! p with Some _ => true | None => false end.

(** [p.mkdir(parents=True, exist_ok=True)]: nothing to do on a
    directory, an error on a file, and otherwise the missing ancestors
    are made first. *)
Fixpoint mkdir (p : path) (fs : fsys) : result fsys :=
  match fs !! p with
  | Some Directory => Ok fs
  | Some (File _) => Raise FileExistsError
  | None =>
      match p with
      | [] => Raise OSError
      | _ :: parent =>
          match fs !! parent with
          | Some Directory => Ok (<[p := Directory]> fs)
          | Some (File _) => Raise NotADirectoryError
          | None => fs' <- mkdir parent fs ;; Ok (<[p := Directory]> fs')
          end
      end
  end.

(** [p.write_text(content)]. *)
Definition write_text (p : path) (content : pystr) (fs : fsys) : result fsys :=
  match fs !! p with
  | Some Directory => Raise IsADirectoryError
  | _ =>
      match p with
      | [] => Raise IsADirectoryError
      | _ :: parent =>
          match fs !! parent with
          | Some Directory => Ok (<[p := File content]> fs)
          | Some (File _) => Raise NotADirectoryError
          | None => Raise FileNotFoundError
          end
      end
  end.

(** A loop of file system calls: what was done before a call raises
    stays done. *)
Fixpoint for_each {A : Type} (f : A -> fsys -> result fsys) (l : list A)
    (fs : fsys) : fsys * result unit :=
  match l with
  | [] => (fs, Ok tt)
  | a :: l' =>
      match f a fs with
      | Ok fs' => for_each f l' fs'
      | Raise e => (fs, Raise e)
      end
  end.

(** What [main] prints, line by line, reduced to the kind of each
    report. *)
Inductive report : Type :=
| NameInvalid (msg : message)
| DescriptionInvalid (msg : message)
| CreatingOutputDirectory
| Created (skill_path : path)
| AlreadyExists
| UnknownError (e : exn).

(** How the process ends: [sys.exit(main())], or an exception nobody
    caught. *)
Inductive outcome : Type :=
| Return (code : Z)
| Uncaught (e : exn).

Definition exit_status (o : outcome) : Z :=
  match o with Return code => code | Uncaught _ => 1 end.

(** The parsed command line. *)
Record args : Type := { name : pystr; description : pystr; output : pystr }.

(** The content of [scripts/.gitkeep]. *)
Definition gitkeep : pystr :=
  [35; 32; 22312; 27492; 28155; 21152; 36741; 21161; 33050; 26412; 10]%N.

Section Scaffold.

(** [Path(_).resolve()], the operating system's reading of the output
    argument, and the two templates, which are text built from the name
    and the description. *)
Variable resolve : pystr -> path.
Variables generate_skill_md generate_readme : pystr -> pystr -> pystr.

Definition create_skill_scaffold (name description : pystr) (output_dir : path)
    (fs : fsys) : fsys * result path :=
  let skill_dir := name :: output_dir in
  if exists_ fs skill_dir then (fs, Raise FileExistsError)
  else
    let directories :=
      [skill_dir; py "scripts" :: skill_dir; py "examples" :: skill_dir] in
    match for_each mkdir directories fs with
    | (fs, Raise e) => (fs, Raise e)
    | (fs, Ok _) =>
        let files :=
          [(py "SKILL.md" :: skill_dir, generate_skill_md name description);
           (py "README.md" :: py "examples" :: skill_dir,
            generate_readme name description);
           (py ".gitkeep" :: py "scripts" :: skill_dir, gitkeep)] in
        match for_each (fun f => write_text (fst f) (snd f)) files fs with
        | (fs, Raise e) => (fs, Raise e)
        | (fs, Ok _) => (fs, Ok skill_dir)
        end
    end.

Definition main (a : args) (fs : fsys) : fsys * list report * outcome :=
  let (valid, msg) := validate_name (name a) in
  if negb valid then (fs, [NameInvalid msg], Return 1)
  else
    let (valid, msg) := validate_description (description a) in
    if negb valid then (fs, [DescriptionInvalid msg], Return 1)
    else
      let output_path := resolve (output a) in
      let made :=
        if negb (exists_ fs output_path)
        then (mkdir output_path fs, [CreatingOutputDirectory])
        else (Ok fs, []) in
      match made with
      | (Raise e, out) => (fs, out, Uncaught e)
      | (Ok fs, out) =>
          match create_skill_scaffold (name a) (description a) output_path fs with
          | (fs, Ok skill_path) => (fs, out ++ [Created skill_path], Return 0)
          | (fs, Raise FileExistsError) => (fs, out ++ [AlreadyExists], Return 1)
          | (fs, Raise e) => (fs, out ++ [UnknownError e], Return 1)
          end
      end.

End Scaffold.

End GenerateSkill.

(** * Properties *)

Import Settings.

(** ** Dicts *)

Section Dicts.
Context {A : Type}.
Implicit Types (d : list (pystr * A)) (k key : pystr) (v : A).

Lemma dict_get_set_eq key v d : dict_get key (dict_set key v d) = Some v.
Proof.
  induction d as [|[k w] d IH]; simpl.
  - by rewrite decide_True.
  - destruct (decide (k = key)) as [->|Hne]; simpl.
    + by rewrite decide_True.
    + by rewrite decide_False.
Qed.

Lemma dict_get_set_ne key k v d :
  key ≠ k -> dict_get k (dict_set key v d) = dict_get k d.
Proof.
  intros Hne. induction d as [|[k' w] d IH]; simpl.
  - by rewrite decide_False.
  - destruct (decide (k' = key)) as [->|Hne']; simpl.
    + by rewrite !decide_False.
    + by rewrite IH.
Qed.

Lemma dict_set_id key v d : dict_get key d = Some v -> dict_set key v d = d.
Proof.
  induction d as [|[k w] d IH]; simpl; [done|].
  destruct (decide (k = key)) as [->|Hne]; [congruence|].
  intros Hget. by rewrite IH.
Qed.

Lemma dict_get_None key d : dict_get key d = None <-> key ∉ d.*1.
Proof.
  induction d as [|[k w] d IH]; simpl.
  - split; [intros _; apply not_elem_of_nil | done].
  - rewrite not_elem_of_cons. destruct (decide (k = key)) as [->|Hne].
    + split; [done | intros [? _]; done].
    + rewrite IH. split; [by split | by intros [_ ?]].
Qed.

Lemma dict_get_Some_elem key v d : dict_get key d = Some v -> (key, v) ∈ d.
Proof.
  induction d as [|[k w] d IH]; simpl; [done|].
  destruct (decide (k = key)) as [->|Hne].
  - intros [= ->]. apply elem_of_cons. by left.
  - intros Hget. apply elem_of_cons. right. by apply IH.
Qed.

Lemma dict_get_elem key v d : NoDup d.*1 -> (key, v) ∈ d -> dict_get key d = Some v.
Proof.
  induction d as [|[k w] d IH]; simpl; [by intros _ ?%elem_of_nil|].
  intros [Hk Hd]%NoDup_cons [[= -> ->]|Hin]%elem_of_cons.
  - by rewrite decide_True.
  - rewrite decide_False; [by apply IH|].
    intros ->. apply Hk. apply list_elem_of_fmap. by exists (key, v).
Qed.

Lemma dict_set_keys key v d :
  (dict_set key v d).*1 = if dict_contains key d then d.*1 else d.*1 ++ [key].
Proof.
  unfold dict_contains. induction d as [|[k w] d IH]; csimpl; [done|].
  destruct (decide (k = key)) as [->|Hne]; csimpl; [done|].
  rewrite IH. by destruct (dict_get key d).
Qed.

Lemma dict_set_NoDup key v d : NoDup d.*1 -> NoDup (dict_set key v d).*1.
Proof.
  intros Hd. rewrite dict_set_keys. unfold dict_contains.
  destruct (dict_get key d) eqn:Hget; [done|].
  apply NoDup_app. split_and!; [done| |apply NoDup_singleton].
  intros k Hk ->%list_elem_of_singleton. by apply dict_get_None in Hget.
Qed.

Lemma dict_set_elem key v d x :
  x ∈ dict_set key v d -> x = (key, v) \/ x ∈ d.
Proof.
  induction d as [|[k w] d IH]; simpl.
  - intros ->%list_elem_of_singleton. by left.
  - destruct (decide (k = key)) as [->|Hne].
    + intros [->|Hin]%elem_of_cons; [by left|]. right. apply elem_of_cons. by right.
    + intros [->|Hin]%elem_of_cons.
      * right. apply elem_of_cons. by left.
      * destruct (IH Hin) as [->|?]; [by left|]. right. apply elem_of_cons. by right.
Qed.

End Dicts.

(** Induction on values that reaches the values held in lists and dicts. *)
Section ValueInd.
Variable P : value -> Prop.
Hypothesis HNone : P VNone.
Hypothesis HBool : forall b, P (VBool b).
Hypothesis HInt : forall z, P (VInt z).
Hypothesis HStr : forall s, P (VStr s).
Hypothesis HList : forall l, Forall P l -> P (VList l).
Hypothesis HDict : forall d, Forall (fun kv => P (snd kv)) d -> P (VDict d).
Hypothesis HModel : forall d, Forall (fun kv => P (snd kv)) d -> P (VModel d).

Fixpoint value_nested_ind (v : value) : P v :=
  match v with
  | VNone => HNone
  | VBool b => HBool b
  | VInt z => HInt z
  | VStr s => HStr s
  | VList l =>
      HList l ((fix go (l : list value) : Forall P l :=
                  match l with
                  | [] => List.Forall_nil P
                  | v :: l' => List.Forall_cons P v l' (value_nested_ind v) (go l')
                  end) l)
  | VDict d =>
      HDict d ((fix go (d : list (pystr * value)) : Forall (fun kv => P (snd kv)) d :=
                  match d with
                  | [] => List.Forall_nil _
                  | kv :: d' => List.Forall_cons _ kv d' (value_nested_ind (snd kv)) (go d')
                  end) d)
  | VModel d =>
      HModel d ((fix go (d : list (pystr * value)) : Forall (fun kv => P (snd kv)) d :=
                  match d with
                  | [] => List.Forall_nil _
                  | kv :: d' => List.Forall_cons _ kv d' (value_nested_ind (snd kv)) (go d')
                  end) d)
  end.

End ValueInd.

(** ** deep_merge *)

Section DeepMerge.

(** The definition unfolds to the loop of the source. *)
Lemma deep_merge_unfold (base override : dict) :
  deep_merge base override = fold_left (merge_step deep_merge) override base.
Proof.
  unfold deep_merge. simpl.
  revert base. induction override as [|[key v] items IH]; intros base; [done|].
  simpl. rewrite IH. f_equal.
  destruct (dict_get key base) as [[]|]; try done.
  by destruct v.
Qed.

Local Arguments merge_step : simpl never.

(** Every iteration is one assignment to [result[key]]. *)
Lemma merge_step_set rec (result : dict) key v :
  merge_step rec result (key, v) =
    dict_set key
      match dict_get key result, v with
      | Some (VDict r), VDict o => VDict (rec r o)
      | _, _ => v
      end result.
Proof.
  unfold merge_step. destruct (dict_get key result) as [[]|]; try done.
  by destruct v.
Qed.

Lemma merge_items_other rec (items result : dict) k :
  k ∉ items.*1 ->
  dict_get k (fold_left (merge_step rec) items result) = dict_get k result.
Proof.
  revert result. induction items as [|[key v] items IH]; intros result; [done|].
  csimpl. intros [Hne Hk]%not_elem_of_cons.
  rewrite IH by done. rewrite merge_step_set. by apply dict_get_set_ne.
Qed.

Lemma merge_items_key rec (items result : dict) k v :
  NoDup items.*1 -> dict_get k items = Some v ->
  dict_get k (fold_left (merge_step rec) items result) =
    Some match dict_get k result, v with
         | Some (VDict r), VDict o => VDict (rec r o)
         | _, _ => v
         end.
Proof.
  revert result. induction items as [|[key w] items IH]; intros result; [done|].
  csimpl. intros [Hkey Hnd]%NoDup_cons.
  destruct (decide (key = k)) as [->|Hne].
  - intros [= ->]. rewrite merge_items_other by done.
    rewrite merge_step_set. apply dict_get_set_eq.
  - intros Hget. rewrite IH by done.
    rewrite merge_step_set. by rewrite dict_get_set_ne.
Qed.

Lemma deep_merge_key (base override : dict) k v :
  NoDup override.*1 -> dict_get k override = Some v ->
  dict_get k (deep_merge base override) =
    Some match dict_get k base, v with
         | Some (VDict b), VDict o => VDict (deep_merge b o)
         | _, _ => v
         end.
Proof. rewrite deep_merge_unfold. apply merge_items_key. Qed.

Lemma deep_merge_other (base override : dict) k :
  dict_get k override = None ->
  dict_get k (deep_merge base override) = dict_get k base.
Proof.
  rewrite deep_merge_unfold. intros Hk. apply merge_items_other.
  by apply dict_get_None.
Qed.

(** Merging into a dict the items it already holds changes nothing. *)
Lemma merge_items_same rec (items d : dict) :
  NoDup d.*1 ->
  (forall k v, (k, v) ∈ items -> (k, v) ∈ d) ->
  (forall k o, (k, VDict o) ∈ items -> rec o o = o) ->
  fold_left (merge_step rec) items d = d.
Proof.
  intros Hnd. induction items as [|[key v] items IH]; intros Hin Hrec; [done|].
  simpl. rewrite merge_step_set.
  assert (dict_get key d = Some v) as Hget.
  { apply dict_get_elem; [done|]. apply Hin, elem_of_cons. by left. }
  rewrite Hget.
  assert (match v with
          | VDict r => match v with VDict o => VDict (rec r o) | _ => v end
          | _ => v
          end = v) as Hv.
  { destruct v; try done. f_equal. apply (Hrec key), elem_of_cons. by left. }
  rewrite Hv, (dict_set_id _ _ _ Hget).
  apply IH.
  - intros k w Hkw. apply Hin, elem_of_cons. by right.
  - intros k o Hko. apply (Hrec k), elem_of_cons. by right.
Qed.

Lemma deep_merge_same_value (v : value) :
  wf_value v = true ->
  match v with VDict d => deep_merge d d = d | _ => True end.
Proof.
  induction v as [| | | | |d IH|] using value_nested_ind; try done.
  simpl. intros [Hnd Hwf]%andb_true_iff.
  apply bool_decide_eq_true in Hnd. rewrite forallb_forall in Hwf.
  rewrite deep_merge_unfold. apply merge_items_same; [done..|].
  intros k o Hko. rewrite Forall_forall in IH.
  apply (IH (k, VDict o) Hko). apply (Hwf (k, VDict o)).
  by apply list_elem_of_In.
Qed.

(** C1. For every pair of nested mappings [base] and [override]: each
    key of [override] maps, in [deep_merge base override], to the
    recursive merge of the two values when the key is in [base] and both
    values are mappings, and to the value of [override] otherwise,
    whatever that value is; each key of [base] alone keeps its value;
    merging [{a: {x: 1, y: 2}}] with [{a: {y: 3}}] gives
    [{a: {x: 1, y: 3}}]. *)
Theorem deep_merge_spec (base override : dict) :
  NoDup override.*1 ->
  (forall key v, dict_get key override = Some v ->
     dict_get key (deep_merge base override) =
       Some match dict_get key base, v with
            | Some (VDict b), VDict o => VDict (deep_merge b o)
            | _, _ => v
            end)
  /\ (forall key, dict_get key override = None ->
        dict_get key (deep_merge base override) = dict_get key base)
  /\ deep_merge
       [(py "a", VDict [(py "x", VInt 1); (py "y", VInt 2)])]
       [(py "a", VDict [(py "y", VInt 3)])]
     = [(py "a", VDict [(py "x", VInt 1); (py "y", VInt 3)])].
Proof.
  intros Hnd. split_and!.
  - intros key v. by apply deep_merge_key.
  - apply deep_merge_other.
  - reflexivity.
Qed.

Lemma deep_merge_spec_witness :
  let base := [(py "a", VDict [(py "x", VInt 1)]); (py "b", VList [VInt 1])] in
  let override := [(py "a", VDict [(py "x", VNone)]); (py "c", VInt 2)] in
  NoDup override.*1
  /\ dict_get (py "a") (deep_merge base override) = Some (VDict [(py "x", VNone)])
  /\ dict_get (py "b") (deep_merge base override) = Some (VList [VInt 1]).
Proof.
  intros base override.
  assert (NoDup override.*1) as Hnd by (apply (bool_decide_unpack _); vm_compute; exact I).
  destruct (deep_merge_spec base override Hnd) as (Hkey & Hother & _).
  split_and!; [done| |].
  - exact (Hkey (py "a") (VDict [(py "x", VNone)]) eq_refl).
  - exact (Hother (py "b") eq_refl).
Defined.

(** C7. For every nested mapping [X], [deep_merge X X = X]. *)
Theorem deep_merge_idempotent (X : dict) :
  wf_dict X = true -> deep_merge X X = X.
Proof. intros Hwf. by apply (deep_merge_same_value (VDict X)). Qed.

Lemma deep_merge_idempotent_witness :
  let X := [(py "a", VDict [(py "x", VInt 1); (py "y", VList [VNone])]);
            (py "b", VStr (py "s"))] in
  wf_dict X = true /\ deep_merge X X = X.
Proof.
  intros X. split; [reflexivity|].
  apply (deep_merge_idempotent X). reflexivity.
Defined.

End DeepMerge.

(** ** load_dotenv *)

Section Dotenv.
Implicit Types (env : environ) (lines : list pystr) (key k v : pystr).

Lemma putenv_Ok key v env env' :
  putenv key v env = Ok env' -> env' = <[key := v]> env.
Proof.
  unfold putenv. destruct (_ || _); [done|]. case_bool_decide; [done|].
  by intros [= <-].
Qed.

Lemma setdefault_lookup key v env env' k :
  setdefault key v env = Ok env' ->
  env' !! k = match env !! k with
              | Some old => Some old
              | None => if decide (key = k) then Some v else None
              end.
Proof.
  unfold setdefault. destruct (env !! key) as [old|] eqn:Hkey.
  - intros [= <-]. destruct (env !! k) eqn:Hk; [done|].
    rewrite decide_False; [done|]. intros ->. congruence.
  - intros ->%putenv_Ok. rewrite lookup_insert.
    destruct (decide (key = k)) as [->|Hne]; [by rewrite Hkey|].
    by destruct (env !! k).
Qed.

Lemma load_line_lookup line env env' k :
  load_line env line = Ok env' ->
  env' !! k = match env !! k with
              | Some old => Some old
              | None => dict_get k (omap parse_line [line])
              end.
Proof.
  unfold load_line. simpl. destruct (parse_line line) as [[key v]|]; simpl.
  - apply setdefault_lookup.
  - intros [= <-]. by destruct (env !! k).
Qed.

Lemma load_lines_lookup lines env env' k :
  load_lines lines env = Ok env' ->
  env' !! k = match env !! k with
              | Some old => Some old
              | None => dict_get k (omap parse_line lines)
              end.
Proof.
  revert env. induction lines as [|line lines IH]; intros env; simpl.
  - intros [= <-]. by destruct (env !! k).
  - destruct (load_line env line) as [env1|] eqn:Hline; simpl; [|done].
    intros Hrest. rewrite (IH _ Hrest), (load_line_lookup _ _ _ k Hline).
    simpl. destruct (env !! k); [done|].
    destruct (parse_line line) as [[key v]|]; simpl; [|done].
    by destruct (decide (key = k)).
Qed.

(** The load completes when the operating system takes every binding
    of the file. *)
Lemma load_lines_total lines env :
  (forall key v, (key, v) ∈ omap parse_line lines ->
     contains_char 0 key = false /\ contains_char 0 v = false /\ key <> []) ->
  exists env', load_lines lines env = Ok env'.
Proof.
  revert env. induction lines as [|line lines IH]; intros env Hlegal; simpl.
  - by eexists.
  - assert (exists env1, load_line env line = Ok env1) as [env1 ->].
    { unfold load_line. destruct (parse_line line) as [[key v]|] eqn:Hp; [|by eexists].
      unfold setdefault. destruct (env !! key); [by eexists|].
      destruct (Hlegal key v) as (Hk & Hv & Hne).
      { simpl. rewrite Hp. apply elem_of_cons. by left. }
      unfold putenv. rewrite Hk, Hv. simpl. rewrite bool_decide_eq_false_2 by done.
      by eexists. }
    simpl. apply IH. intros key v Hin. apply Hlegal. simpl.
    destruct (parse_line line); [apply elem_of_cons; by right | done].
Qed.

Lemma contains_char_elem c (s : pystr) : contains_char c s = true <-> c ∈ s.
Proof.
  unfold contains_char. rewrite existsb_exists. split.
  - intros (x & Hin & ->%N.eqb_eq). by apply list_elem_of_In.
  - intros Hin. exists c. split; [by apply list_elem_of_In | apply N.eqb_refl].
Qed.

Lemma lstrip_elem c (s : pystr) : c ∈ lstrip s -> c ∈ s.
Proof.
  induction s as [|c' s IH]; simpl; [done|].
  destruct (isspace c'); [|done]. intros Hin. apply elem_of_cons. right. by apply IH.
Qed.

Lemma strip_elem c (s : pystr) : c ∈ strip s -> c ∈ s.
Proof.
  unfold strip, rstrip. rewrite elem_of_reverse. intros Hin%lstrip_elem.
  rewrite elem_of_reverse in Hin. by apply lstrip_elem.
Qed.

(** Blank lines, comment lines and lines without [=] bind nothing. *)
Lemma parse_line_ignored line :
  strip line = [] \/ startswith_char 35 (strip line) = true
  \/ contains_char 61 line = false ->
  parse_line line = None.
Proof.
  unfold parse_line. intros [Hblank|[Hcomment|Hnoeq]].
  - rewrite Hblank. done.
  - rewrite Hcomment. by rewrite andb_false_r.
  - destruct (contains_char 61 (strip line)) eqn:Heq.
    + apply contains_char_elem, strip_elem, contains_char_elem in Heq. congruence.
    + by rewrite andb_false_r.
Qed.

(** C5, as the code has it. When [load_dotenv] completes on a file, a
    key that was set before keeps its value, and a key that was not is
    bound to the trimmed value of the first line of the file that
    binds it (split on the first [=], both sides trimmed), or stays
    unset when no line does; with [FOO=bar] set, loading a file that
    holds [FOO=baz] leaves [FOO] at [bar]; blank lines, [#] lines and
    lines without [=] change nothing; a missing file changes nothing. *)
Theorem load_dotenv_first_writer (fs : gmap pystr (entry (list pystr)))
    (env_file : pystr) lines env env' :
  fs !! env_file = Some (File lines) ->
  load_dotenv fs env_file env = Ok env' ->
  (forall key,
     env' !! key = match env !! key with
                   | Some old => Some old
                   | None => dict_get key (omap parse_line lines)
                   end)
  /\ (load_dotenv {[py ".env" := File [py "FOO=baz"]]} (py ".env")
        {[py "FOO" := py "bar"]} = Ok {[py "FOO" := py "bar"]})
  /\ (forall line env0,
        strip line = [] \/ startswith_char 35 (strip line) = true
        \/ contains_char 61 line = false ->
        load_line env0 line = Ok env0)
  /\ (forall env0, load_dotenv ∅ env_file env0 = Ok env0).
Proof.
  intros Hfile. unfold load_dotenv at 1. rewrite Hfile. intros Hload.
  split_and!.
  - intros key. by apply load_lines_lookup.
  - by vm_compute.
  - intros line env0 Hline. unfold load_line. by rewrite parse_line_ignored.
  - intros env0. unfold load_dotenv. by rewrite lookup_empty.
Qed.

Lemma load_dotenv_first_writer_witness :
  let fs : gmap pystr (entry (list pystr)) :=
    {[py ".env" := File [py "# settings"; py " A = 1 "; py "A=2"; py "B=x=y"]]} in
  let env : environ := {[py "B" := py "old"]} in
  exists env',
    load_dotenv fs (py ".env") env = Ok env'
    /\ env' !! py "A" = Some (py "1") /\ env' !! py "B" = Some (py "old").
Proof.
  intros fs env.
  exists {[py "A" := py "1"; py "B" := py "old"]}.
  assert (load_dotenv fs (py ".env") env
          = Ok {[py "A" := py "1"; py "B" := py "old"]}) as Hload by (by vm_compute).
  split; [exact Hload|].
  destruct (load_dotenv_first_writer fs (py ".env") _ env _ eq_refl Hload)
    as (Hkeys & _).
  split; [exact (Hkeys (py "A")) | exact (Hkeys (py "B"))].
Defined.

(** C5 as stated fails: the key of a later line that binds an already
    bound key does not get that line's value. *)
Lemma load_dotenv_later_line_loses :
  ~ (forall lines env env' line key v,
       load_lines lines env = Ok env' ->
       line ∈ lines ->
       parse_line line = Some (key, v) ->
       env' !! key = Some (match env !! key with Some old => old | None => v end)).
Proof.
  intros Hclaim.
  specialize (Hclaim [py "FOO=a"; py "FOO=b"] ∅ {[py "FOO" := py "a"]}
                (py "FOO=b") (py "FOO") (py "b")).
  assert ((∅ : environ) !! py "FOO" = None) as Hnone by apply lookup_empty.
  rewrite Hnone in Hclaim.
  assert (({[py "FOO" := py "a"]} : environ) !! py "FOO" = Some (py "a")) as Hsome
    by apply lookup_singleton_eq.
  rewrite Hsome in Hclaim.
  discriminate Hclaim.
  - by vm_compute.
  - apply elem_of_cons. right. apply elem_of_cons. by left.
  - by vm_compute.
Qed.

End Dotenv.

(** ** Python values stay Python values *)

Section WellFormed.

Lemma wf_dict_iff (d : dict) :
  wf_dict d = true <->
  NoDup d.*1 /\ forall k v, (k, v) ∈ d -> wf_value v = true.
Proof.
  unfold wf_dict. simpl. rewrite andb_true_iff, bool_decide_eq_true, forallb_forall.
  split; intros [Hnd Hall]; (split; [done|]).
  - intros k v Hin. apply (Hall (k, v)). by apply list_elem_of_In.
  - intros [k v] Hin. apply (Hall k v). by apply list_elem_of_In.
Qed.

Lemma wf_dict_get (d : dict) k v :
  wf_dict d = true -> dict_get k d = Some v -> wf_value v = true.
Proof.
  intros [_ Hall]%wf_dict_iff Hget. apply (Hall k). by apply dict_get_Some_elem.
Qed.

Lemma wf_dict_set (d : dict) k v :
  wf_dict d = true -> wf_value v = true -> wf_dict (dict_set k v d) = true.
Proof.
  intros [Hnd Hall]%wf_dict_iff Hv. apply wf_dict_iff. split.
  - by apply dict_set_NoDup.
  - intros k' v' [[= -> ->]|Hin]%dict_set_elem; [done|]. by apply (Hall k').
Qed.

Local Arguments merge_step : simpl never.

Lemma merge_items_wf rec (items result : dict) :
  (forall k o r, (k, VDict o) ∈ items -> wf_dict r = true -> wf_dict (rec r o) = true) ->
  (forall k v, (k, v) ∈ items -> wf_value v = true) ->
  wf_dict result = true ->
  wf_dict (fold_left (merge_step rec) items result) = true.
Proof.
  revert result. induction items as [|[key v] items IH]; intros result Hrec Hitems Hres;
    [done|].
  simpl. apply IH.
  - intros k o r Hin. apply (Hrec k). apply elem_of_cons. by right.
  - intros k w Hin. apply (Hitems k). apply elem_of_cons. by right.
  - rewrite merge_step_set. apply wf_dict_set; [done|].
    assert (wf_value v = true) as Hv by (apply (Hitems key), elem_of_cons; by left).
    destruct (dict_get key result) as [[]|] eqn:Hget; try done.
    destruct v; try done.
    apply (Hrec key); [apply elem_of_cons; by left|].
    by apply (wf_dict_get _ _ _ Hres Hget).
Qed.

Lemma deep_merge_wf_value (v : value) :
  wf_value v = true ->
  match v with
  | VDict o => forall b, wf_dict b = true -> wf_dict (deep_merge b o) = true
  | _ => True
  end.
Proof.
  induction v as [| | | | |o IH|] using value_nested_ind; try done.
  intros [Hnd Hall]%wf_dict_iff b Hb. rewrite deep_merge_unfold.
  apply merge_items_wf; [|done..].
  intros k o' r Hin Hr. rewrite Forall_forall in IH.
  apply (IH (k, VDict o') Hin); [|done]. by apply (Hall k).
Qed.

Lemma deep_merge_wf (base override : dict) :
  wf_dict base = true -> wf_dict override = true ->
  wf_dict (deep_merge base override) = true.
Proof. intros Hb Ho. by apply (deep_merge_wf_value (VDict override)). Qed.

Lemma load_yaml_file_wf fs file_path v :
  wf_files fs -> load_yaml_file fs file_path = Ok v -> wf_value v = true.
Proof.
  intros Hfs. unfold load_yaml_file.
  destruct file_path as [[|c path]|]; try by intros [= <-].
  destruct (fs !! _) as [[|[config|]]|] eqn:Hfile; try done.
  - intros [= <-]. specialize (Hfs _ _ Hfile). simpl in Hfs.
    by destruct (truthy config).
  - by intros [= <-].
Qed.

Lemma deep_merge_call_wf base override v :
  wf_value base = true -> wf_value override = true ->
  deep_merge_call base override = Ok v -> wf_value v = true.
Proof.
  intros Hb Ho. destruct base as [| | | |l|b|], override as [| | | | |o|]; try done.
  - simpl. destruct o; [|done]. by intros [= <-].
  - simpl. intros [= <-]. by apply deep_merge_wf.
Qed.

Lemma load_merged_config_wf env fs v :
  wf_files fs -> load_merged_config env fs = Ok v -> wf_value v = true.
Proof.
  intros Hfs. unfold load_merged_config.
  destruct (load_yaml_file fs (Some (getenv env (py "CONFIG_BASE_PATH") [])))
    as [b|] eqn:Hb; [|done].
  destruct (load_yaml_file fs (Some (getenv env (py "CONFIG_ENV_PATH") [])))
    as [o|] eqn:Ho; [|done].
  simpl. apply deep_merge_call_wf; by eapply load_yaml_file_wf.
Qed.

Lemma adopt_section_wf yaml_config section (data data' : dict) :
  wf_value yaml_config = true -> wf_dict data = true ->
  adopt_section yaml_config section data = Ok data' -> wf_dict data' = true.
Proof.
  intros Hy Hd. unfold adopt_section. destruct yaml_config; try by intros [= <-].
  - by destruct (_ && _); [|intros [= <-]].
  - destruct (dict_get section d) eqn:Hget; [|by intros [= <-]].
    intros [= <-]. destruct (dict_contains section data); [done|].
    apply wf_dict_set; [done|]. by apply (wf_dict_get d section).
Qed.

Lemma Settings_sections_wf env fs (data data' : dict) :
  wf_files fs -> wf_dict data = true ->
  Settings_sections env fs data = Ok data' -> wf_dict data' = true.
Proof.
  intros Hfs Hd. unfold Settings_sections.
  destruct (load_merged_config env fs) as [y|] eqn:Hy; [|done]. simpl.
  apply load_merged_config_wf in Hy; [|done].
  destruct (truthy y); [|by intros [= <-]].
  destruct (adopt_section y (py "database") data) as [d1|] eqn:H1; [|done]. simpl.
  destruct (adopt_section y (py "api") d1) as [d2|] eqn:H2; [|done]. simpl.
  destruct (adopt_section y (py "app") d2) as [d3|] eqn:H3; [|done]. simpl.
  intros H4.
  eapply adopt_section_wf in H1; [|done..].
  eapply adopt_section_wf in H2; [|done..].
  eapply adopt_section_wf in H3; [|done..].
  by eapply adopt_section_wf in H4.
Qed.

End WellFormed.

(** ** YAML layers *)

Section Yaml.

(** What [load_yaml_file] returns, case by case. *)
Lemma load_yaml_file_cases (fs : yaml_files) (path : pystr) :
  load_yaml_file fs None = Ok (VDict [])
  /\ load_yaml_file fs (Some []) = Ok (VDict [])
  /\ (fs !! path = None -> load_yaml_file fs (Some path) = Ok (VDict []))
  /\ (forall config, path <> [] -> fs !! path = Some (File (Some config)) ->
        load_yaml_file fs (Some path)
        = Ok (if truthy config then config else VDict []))
  /\ (path <> [] -> fs !! path = Some (File None) ->
        load_yaml_file fs (Some path) = Raise YAMLError).
Proof.
  split_and!; try done.
  - intros Hnone. destruct path; [done|]. simpl. by rewrite Hnone.
  - intros config Hne Hfile. destruct path; [done|]. simpl. by rewrite Hfile.
  - intros Hne Hfile. destruct path; [done|]. simpl. by rewrite Hfile.
Qed.

(** C4, on a file whose text is the YAML sequence [- a]: the reader
    returns the sequence, which is neither the document's mapping nor an
    empty mapping; [load_merged_config] then fails on it. *)
Theorem load_yaml_file_sequence :
  let fs : yaml_files := {[py "config.yaml" := File (Some (VList [VStr (py "a")]))]} in
  load_yaml_file fs (Some (py "config.yaml")) = Ok (VList [VStr (py "a")])
  /\ load_yaml_file fs (Some (py "absent.yaml")) = Ok (VDict [])
  /\ load_merged_config
       {[py "CONFIG_ENV_PATH" := py "config.yaml"]} fs = Raise AttributeError.
Proof. by vm_compute. Qed.

End Yaml.

(** ** Settings *)

Section SettingsProps.
Implicit Types (env : environ) (fs : yaml_files) (sources data : dict).

Lemma apply_env_overrides_password env data (pw : pystr) :
  env !! py "DATABASE_PASSWORD" = Some pw -> pw <> [] ->
  wf_dict data = true ->
  (forall v, dict_get (py "database") data = Some v -> is_dict v = true) ->
  exists db,
    dict_get (py "database") (_apply_env_overrides env data) = Some (VDict db)
    /\ dict_get (py "password") db = Some (VStr pw)
    /\ NoDup db.*1
    /\ NoDup (_apply_env_overrides env data).*1.
Proof.
  intros Henv Hpw Hwf Hdict.
  remember (_apply_env_overrides env data) as out eqn:Hout.
  unfold _apply_env_overrides in Hout. rewrite Henv in Hout.
  destruct pw as [|c pw]; [done|]. unfold dict_contains in Hout.
  pose proof Hwf as [Hnd _]%wf_dict_iff.
  destruct (dict_get (py "database") data) as [v|] eqn:Hget.
  - specialize (Hdict v eq_refl). destruct v as [| | | | |db|]; try done.
    cbv beta iota zeta in Hout. rewrite Hget in Hout. subst out.
    exists (dict_set (py "password") (VStr (c :: pw)) db). split_and!.
    + apply dict_get_set_eq.
    + apply dict_get_set_eq.
    + apply dict_set_NoDup.
      by pose proof (wf_dict_get _ _ _ Hwf Hget) as [? _]%wf_dict_iff.
    + by apply dict_set_NoDup.
  - cbv beta iota zeta in Hout. rewrite dict_get_set_eq in Hout. subst out.
    exists (dict_set (py "password") (VStr (c :: pw)) []). split_and!.
    + apply dict_get_set_eq.
    + apply dict_get_set_eq.
    + apply NoDup_singleton.
    + by do 2 apply dict_set_NoDup.
Qed.

(** Keyword data wins over the library's own sources, field by field. *)
Lemma keyword_field_wins sources data section field default (d : dict) v :
  NoDup data.*1 -> dict_get section data = Some (VDict d) ->
  NoDup d.*1 -> dict_get field d = Some v -> is_dict v = false ->
  section_field section field default (deep_merge sources data) = Ok v.
Proof.
  intros Hnd Hsec Hd Hfield Hv. unfold section_field.
  rewrite (deep_merge_key sources data _ _ Hnd Hsec).
  destruct (dict_get section sources) as [[| | | | |b|]|]; try by rewrite Hfield.
  rewrite (deep_merge_key b d _ _ Hd Hfield).
  destruct (dict_get field b) as [[]|]; try done. by destruct v.
Qed.

(** C3, as the code has it. When [DATABASE_PASSWORD] is set to a
    non-empty value and the database section the constructor is left
    with (the caller's, else the YAML layers', else none) is a mapping
    or absent, the construction reaches the schema and
    [database.password] is the value of the variable, whatever the YAML
    layers, the caller and the library's other sources hold. *)
Theorem database_password_from_environment sources env fs data data' (pw : pystr) :
  env !! py "DATABASE_PASSWORD" = Some pw -> pw <> [] ->
  wf_files fs -> wf_dict data = true ->
  Settings_sections env fs data = Ok data' ->
  (forall v, dict_get (py "database") data' = Some v -> is_dict v = true) ->
  exists state,
    Settings_state sources env fs data = Ok state
    /\ database_password state = Ok (VStr pw).
Proof.
  intros Henv Hpw Hfs Hwf Hsections Hdict.
  unfold Settings_state, Settings_data. rewrite Hsections. simpl.
  eexists. split; [done|].
  apply Settings_sections_wf in Hsections; [|done..].
  destruct (apply_env_overrides_password env data' pw) as (db & Hdb & Hpass & Hnd & Hnd');
    [done..|].
  by apply (keyword_field_wins _ _ _ _ _ db).
Qed.

Lemma database_password_from_environment_witness :
  let fs : yaml_files :=
    {[py "base.yaml" :=
        File (Some (VDict [(py "database",
                            VDict [(py "host", VStr (py "db"));
                                   (py "password", VStr (py "from-yaml"))])]))]} in
  let env : environ :=
    {[py "CONFIG_BASE_PATH" := py "base.yaml";
      py "DATABASE_PASSWORD" := py "s3cret"]} in
  let sources := [(py "database", VDict [(py "password", VStr (py "other"))])] in
  exists state,
    Settings_state sources env fs [] = Ok state
    /\ database_password state = Ok (VStr (py "s3cret")).
Proof.
  intros fs env sources.
  apply (database_password_from_environment sources env fs []
           [(py "database",
             VDict [(py "host", VStr (py "db"));
                    (py "password", VStr (py "from-yaml"))])]
           (py "s3cret")).
  - by vm_compute.
  - by vm_compute.
  - apply map_Forall_singleton. by vm_compute.
  - reflexivity.
  - by vm_compute.
  - intros v Hv. vm_compute in Hv. by injection Hv as <-.
Defined.

(** C3 as stated fails: a variable that is set to the empty string does
    not reach [database.password]. *)
Lemma database_password_empty_variable :
  ~ (forall sources env fs data (pw : pystr) state,
       env !! py "DATABASE_PASSWORD" = Some pw ->
       Settings_state sources env fs data = Ok state ->
       database_password state = Ok (VStr pw)).
Proof.
  intros Hclaim.
  specialize (Hclaim []
    {[py "CONFIG_BASE_PATH" := py "base.yaml"; py "DATABASE_PASSWORD" := []]}
    {[py "base.yaml" :=
        File (Some (VDict [(py "database",
                            VDict [(py "password", VStr (py "from-yaml"))])]))]}
    [] [] _ ltac:(by vm_compute) eq_refl).
  vm_compute in Hclaim. discriminate Hclaim.
Qed.

(** Nor does a variable override a section the caller supplies as a
    model instance: [_apply_env_overrides] writes into dicts only. *)
Lemma database_password_model_instance :
  let env : environ := {[py "DATABASE_PASSWORD" := py "s3cret"]} in
  let data := [(py "database", VModel [(py "password", VStr (py "caller"))])] in
  (state <- Settings_state [] env ∅ data ;; database_password state)
  = Ok (VStr (py "caller")).
Proof. by vm_compute. Qed.

(** C2, on the base layer [{app: {max_workers: 10}}] and the
    environment layer [{app: {max_workers: 20}}]: with
    [APP__MAX_WORKERS=30] in the environment, and whatever the library's
    environment source makes of it, [app.max_workers] is 20, not 30: the
    section of the YAML layers is keyword data, above every environment
    binding. Without the variable it is 20, and without YAML files and
    bindings it is the default 20. *)
Theorem max_workers_yaml_over_environment sources :
  let layers : yaml_files :=
    {[py "base.yaml" :=
        File (Some (VDict [(py "app", VDict [(py "max_workers", VInt 10)])]));
      py "env.yaml" :=
        File (Some (VDict [(py "app", VDict [(py "max_workers", VInt 20)])]))]} in
  let paths : environ :=
    {[py "CONFIG_BASE_PATH" := py "base.yaml";
      py "CONFIG_ENV_PATH" := py "env.yaml"]} in
  (state <- Settings_state sources (<[py "APP__MAX_WORKERS" := py "30"]> paths)
              layers [] ;;
   app_max_workers state) = Ok (VInt 20)
  /\ (state <- Settings_state sources paths layers [] ;; app_max_workers state)
     = Ok (VInt 20)
  /\ (state <- Settings_state [] ∅ ∅ [] ;; app_max_workers state) = Ok (VInt 20).
Proof.
  intros layers paths.
  assert (forall env,
            Settings_data env layers [] = Ok [(py "app", VDict [(py "max_workers", VInt 20)])] ->
            (state <- Settings_state sources env layers [] ;; app_max_workers state)
            = Ok (VInt 20)) as Hyaml.
  { intros env Hdata. unfold Settings_state. rewrite Hdata. simpl.
    apply (keyword_field_wins _ _ _ _ _ [(py "max_workers", VInt 20)]);
      try done; apply (bool_decide_unpack _); by vm_compute. }
  split_and!.
  - apply Hyaml. by vm_compute.
  - apply Hyaml. by vm_compute.
  - by vm_compute.
Qed.

(** C9. A [DATABASE_PASSWORD] that is bound to the empty string is as
    good as unset: the schema gets the same input, so
    [database.password] comes from the YAML layers or the default. The
    library's own sources are the same in both cases, no field being
    bound to that variable. *)
Theorem empty_password_variable_ignored sources env fs data :
  Settings_state sources (<[py "DATABASE_PASSWORD" := []]> env) fs data
  = Settings_state sources (delete (py "DATABASE_PASSWORD") env) fs data
  /\ (state <- Settings_state sources (<[py "DATABASE_PASSWORD" := []]> env) fs data ;;
      database_password state)
     = (state <- Settings_state sources (delete (py "DATABASE_PASSWORD") env) fs data ;;
        database_password state).
Proof.
  assert (Settings_state sources (<[py "DATABASE_PASSWORD" := []]> env) fs data
          = Settings_state sources (delete (py "DATABASE_PASSWORD") env) fs data) as Heq.
  { unfold Settings_state, Settings_data, Settings_sections, load_merged_config, getenv.
    rewrite !lookup_insert_ne, !lookup_delete_ne by done.
    unfold _apply_env_overrides. by rewrite lookup_insert_eq, lookup_delete_eq. }
  split; [done|]. by rewrite Heq.
Qed.

End SettingsProps.

(** ** The scaffolder *)

Section Scaffolder.
Import GenerateSkill.

Variable resolve : pystr -> path.
Variables generate_skill_md generate_readme : pystr -> pystr -> pystr.

Abbreviation run := (main resolve generate_skill_md generate_readme).

(** [mkdir] touches the path and its ancestors only. *)
Lemma mkdir_other (p q : path) (fs fs' : fsys) :
  mkdir p fs = Ok fs' -> ~ q `suffix_of` p -> fs' !! q = fs !! q.
Proof.
  revert fs fs'. induction p as [|c parent IH]; intros fs fs'; simpl.
  - destruct (fs !! []) as [[|]|]; try done. by intros [= <-].
  - intros Hmk Hq.
    assert (q <> c :: parent) as Hne by (intros ->; by apply Hq).
    assert (~ q `suffix_of` parent) as Hq'.
    { intros Hsuf. apply Hq. by apply suffix_cons_r. }
    destruct (fs !! (c :: parent)) as [[|]|]; try done; [by injection Hmk as <-|].
    destruct (fs !! parent) as [[|]|] eqn:Hparent; try done.
    + injection Hmk as <-. by rewrite lookup_insert_ne.
    + destruct (mkdir parent fs) as [fs1|] eqn:Hrec; [|done]. simpl in Hmk.
      injection Hmk as <-. rewrite lookup_insert_ne by done. by apply (IH fs).
Qed.

Lemma below_not_above (p q : path) (c : pystr) :
  (c :: p) `suffix_of` q -> ~ q `suffix_of` p.
Proof.
  intros H1%suffix_length H2%suffix_length. simpl in H1. lia.
Qed.

(** C8. When the name or the description is refused, or the target
    [<output>/<name>] exists, the exit status is not zero and nothing at
    or below the target is created or changed. A refusal leaves the
    whole file system as it was and is the one thing reported; so does a
    collision, the output directory being there. *)
Theorem scaffolder_failure_keeps_target (a : args) (fs : fsys) :
  fst (validate_name (name a)) = false
  \/ fst (validate_description (description a)) = false
  \/ exists_ fs (name a :: resolve (output a)) = true ->
  exit_status (snd (run a fs)) <> 0
  /\ (forall p, (name a :: resolve (output a)) `suffix_of` p ->
        fst (fst (run a fs)) !! p = fs !! p)
  /\ (fst (validate_name (name a)) = false
      \/ fst (validate_description (description a)) = false ->
      fst (fst (run a fs)) = fs
      /\ exists r, snd (fst (run a fs)) = [r] /\ snd (run a fs) = Return 1)
  /\ (exists_ fs (resolve (output a)) = true -> fst (fst (run a fs)) = fs).
Proof.
  intros Hfail. unfold main.
  destruct (validate_name (name a)) as [[|] msg]; simpl in *; cycle 1.
  { split_and!; try done. intros _. split; [done|]. by eexists. }
  destruct (validate_description (description a)) as [[|] msg']; simpl in *; cycle 1.
  { split_and!; try done. intros _. split; [done|]. by eexists. }
  destruct Hfail as [?|[?|Hexists]]; [done..|].
  destruct (exists_ fs (resolve (output a))) eqn:Hout; simpl.
  - unfold create_skill_scaffold. rewrite Hexists. simpl.
    split_and!; try done. by intros [|].
  - destruct (mkdir (resolve (output a)) fs) as [fs1|e] eqn:Hmk.
    + assert (forall p, (name a :: resolve (output a)) `suffix_of` p ->
                fs1 !! p = fs !! p) as Hsame.
      { intros p Hp. apply (mkdir_other _ _ _ _ Hmk). by eapply below_not_above. }
      unfold create_skill_scaffold, exists_ in *.
      rewrite (Hsame (name a :: resolve (output a))) by done.
      destruct (fs !! (name a :: resolve (output a))); [|done]. simpl.
      split_and!; try done. by intros [|].
    + simpl. split_and!; try done. by intros [|].
Qed.

(** C10. The empty string is refused as a name and as a description, so
    a run with either one empty ends with status 1 and the file system
    as it was. *)
Theorem empty_inputs_rejected (a : args) (fs : fsys) :
  name a = [] \/ description a = [] ->
  validate_name [] = (false, NameEmpty)
  /\ validate_description [] = (false, DescriptionEmpty)
  /\ exists r, run a fs = (fs, [r], Return 1).
Proof.
  intros Hempty. split_and!; [done..|]. unfold main.
  destruct (validate_name (name a)) as [[|] msg] eqn:Hname; simpl; [|by eexists].
  destruct Hempty as [Hn|Hd]; [by rewrite Hn in Hname|].
  rewrite Hd. simpl. by eexists.
Qed.

End Scaffolder.

Lemma scaffolder_failure_keeps_target_witness :
  let resolve := fun _ : pystr => [py "skills"] in
  let template := fun name description : pystr => name ++ description in
  let a := {| GenerateSkill.name := py "excel-handler";
              GenerateSkill.description := py "Handle Excel files";
              GenerateSkill.output := py "skills" |} in
  let target := [py "excel-handler"; py "skills"] in
  let fs : GenerateSkill.fsys :=
    {[ [] := Directory; [py "skills"] := Directory; target := Directory;
       py "SKILL.md" :: target := File (py "kept") ]} in
  GenerateSkill.exit_status (snd (GenerateSkill.main resolve template template a fs)) <> 0
  /\ fst (fst (GenerateSkill.main resolve template template a fs))
       !! (py "SKILL.md" :: target) = Some (File (py "kept")).
Proof.
  intros resolve template a target fs.
  destruct (scaffolder_failure_keeps_target resolve template template a fs)
    as (Hexit & Hsame & _).
  - right. right. by vm_compute.
  - split; [exact Hexit|].
    rewrite Hsame; [by vm_compute|]. by exists [py "SKILL.md"].
Defined.

Lemma empty_inputs_rejected_witness :
  let resolve := fun _ : pystr => [py "skills"] in
  let template := fun name description : pystr => name ++ description in
  let a := {| GenerateSkill.name := py "excel-handler";
              GenerateSkill.description := [];
              GenerateSkill.output := py "." |} in
  exists r,
    GenerateSkill.main resolve template template a ∅ = (∅, [r], GenerateSkill.Return 1).
Proof.
  intros resolve template a.
  destruct (empty_inputs_rejected resolve template template a ∅) as (_ & _ & Hrun);
    [by right|].
  exact Hrun.
Defined.

(** ** The validators *)

Section Validators.
Import GenerateSkill.

Lemma name_pattern_spec (s : pystr) :
  name_pattern s = true <->
  exists body, body <> [] /\ Forall (fun c => name_char c = true) body
               /\ (s = body \/ s = body ++ [10%N]).
Proof.
  induction s as [|c s IH]; simpl.
  - split; [done|]. intros (body & Hne & _ & [<-| Heq]); [done|].
    by destruct body.
  - rewrite andb_true_iff, !orb_true_iff, !bool_decide_eq_true, IH. split.
    + intros [Hc [[->| ->]|(body & Hne & Hall & Heq)]].
      * exists [c]. split_and!; [done|by constructor|by left].
      * exists [c]. split_and!; [done|by constructor|by right].
      * exists (c :: body). split_and!; [done|by constructor|].
        destruct Heq as [->| ->]; [by left|by right].
    + intros ([|c' body] & Hne & Hall & Heq); [done|].
      apply Forall_cons in Hall as [Hc' Hall].
      assert (c = c' /\ (s = body \/ s = body ++ [10%N])) as [-> Hs].
      { destruct Heq as [[= -> ->]|[= -> ->]]; split; auto. }
      split; [done|]. destruct body as [|c'' body].
      * left. destruct Hs as [->| ->]; [by left|by right].
      * right. by exists (c'' :: body).
Qed.

(** X1. [validate_name] accepts exactly the names of at most 64
    characters that are a non-empty run of [a-z], [0-9] and [-],
    possibly followed by one newline: the [$] of the pattern lets a final
    newline through. *)
Theorem validate_name_accepts (s : pystr) :
  fst (validate_name s) = true <->
  (length s <= 64)%nat
  /\ exists body, body <> [] /\ Forall (fun c => name_char c = true) body
                  /\ (s = body \/ s = body ++ [10%N]).
Proof.
  unfold validate_name. rewrite <- name_pattern_spec.
  case_bool_decide as Hempty.
  { subst s. simpl. split; [done|]. by intros [_ ?]. }
  case_bool_decide as Hlen; simpl.
  { split; [done|]. intros [? _]. lia. }
  destruct (name_pattern s); simpl; split; try done.
  - intros _. split; [lia|done].
  - by intros [_ ?].
Qed.

Lemma xml_tag_spec (s : pystr) :
  xml_tag s = true <->
  exists pre mid post,
    s = pre ++ 60%N :: mid ++ 62%N :: post /\ mid <> [] /\ 62%N ∉ mid.
Proof.
  induction s as [|c s IH]; simpl.
  - split; [done|]. intros (pre & mid & post & Heq & _). by destruct pre.
  - rewrite orb_true_iff, andb_true_iff, IH. split.
    + intros [[Hc Htail]|(pre & mid & post & -> & Hmid)].
      * apply N.eqb_eq in Hc as ->. destruct s as [|c' s]; [done|].
        apply andb_true_iff in Htail as [Hc' Hin].
        apply negb_true_iff, N.eqb_neq in Hc'.
        apply contains_char_elem, list_elem_of_split_l in Hin
          as (m & post & -> & Hm).
        exists [], (c' :: m), post. split_and!; [done..|].
        apply not_elem_of_cons. by split.
      * by exists (c :: pre), mid, post.
    + intros ([|c0 pre] & mid & post & Heq & Hne & Hmid).
      * left. injection Heq as -> ->. split; [apply N.eqb_refl|].
        destruct mid as [|c' m]; [done|]. simpl.
        apply not_elem_of_cons in Hmid as [Hc' Hm].
        apply andb_true_iff. split.
        -- apply negb_true_iff, N.eqb_neq. congruence.
        -- apply contains_char_elem, elem_of_app. right. apply elem_of_cons. by left.
      * right. injection Heq as -> ->. by exists pre, mid, post.
Qed.

(** X2. [validate_description] accepts exactly the non-empty
    descriptions of at most 1024 characters in which no [<] is followed
    by one or more characters other than [>] and then a [>]. Newlines and
    lone angle brackets pass. *)
Theorem validate_description_accepts (d : pystr) :
  fst (validate_description d) = true <->
  d <> [] /\ (length d <= 1024)%nat
  /\ ~ exists pre mid post,
         d = pre ++ 60%N :: mid ++ 62%N :: post /\ mid <> [] /\ 62%N ∉ mid.
Proof.
  unfold validate_description. rewrite <- xml_tag_spec.
  case_bool_decide as Hempty; simpl.
  { split; [done|]. by intros [? _]. }
  case_bool_decide as Hlen; simpl.
  { split; [done|]. intros (_ & ? & _). lia. }
  destruct (xml_tag d); simpl; split; try done.
  - by intros (_ & _ & ?).
  - intros _. split_and!; [done|lia|done].
Qed.

(** X3. An accepted name is one path component: it holds no [/] and no
    NUL and is neither [.] nor [..], so the skill directory is a child of
    the output directory. *)
Theorem valid_name_is_component (s : pystr) :
  fst (validate_name s) = true ->
  (47%N ∉ s) /\ (0%N ∉ s) /\ s <> py "." /\ s <> py "..".
Proof.
  intros (_ & body & Hne & Hall & Hs)%validate_name_accepts.
  assert (forall c, c ∈ s -> name_char c = true \/ c = 10%N) as Hchars.
  { intros c Hc. rewrite Forall_forall in Hall.
    destruct Hs as [->| ->]; [left; by apply Hall|].
    apply elem_of_app in Hc as [Hc|Hc%list_elem_of_singleton]; [left; by apply Hall|by right]. }
  split_and!.
  - intros [?|?]%Hchars; done.
  - intros [?|?]%Hchars; done.
  - intros ->. destruct (Hchars 46%N) as [?|?]; [|done..]. apply elem_of_cons. by left.
  - intros ->. destruct (Hchars 46%N) as [?|?]; [|done..]. apply elem_of_cons. by left.
Qed.

Lemma valid_name_is_component_witness :
  fst (validate_name (py "excel-handler")) = true
  /\ (47%N ∉ py "excel-handler").
Proof.
  split; [reflexivity|].
  apply (valid_name_is_component (py "excel-handler")). reflexivity.
Defined.

End Validators.

(** ** A successful run of the scaffolder *)

Section ScaffoldRun.
Import GenerateSkill.

Variable resolve : pystr -> path.
Variables generate_skill_md generate_readme : pystr -> pystr -> pystr.

Abbreviation run_main := (main resolve generate_skill_md generate_readme).

Lemma mkdir_is_dir (p : path) (fs fs' : fsys) :
  mkdir p fs = Ok fs' -> fs' !! p = Some Directory.
Proof.
  destruct p as [|c parent]; simpl.
  - destruct (fs !! []) as [[|]|] eqn:Hp; try done. by intros [= <-].
  - destruct (fs !! (c :: parent)) as [[|]|] eqn:Hp; try done; [by intros [= <-]|].
    destruct (fs !! parent) as [[|]|]; try done.
    + intros [= <-]. apply lookup_insert_eq.
    + destruct (mkdir parent fs); [|done]. simpl. intros [= <-].
      apply lookup_insert_eq.
Qed.

(** [mkdir] changes no path that exists. *)
Lemma mkdir_preserved (p q : path) (fs fs' : fsys) e :
  mkdir p fs = Ok fs' -> fs !! q = Some e -> fs' !! q = Some e.
Proof.
  revert fs fs'. induction p as [|c parent IH]; intros fs fs'; simpl.
  - destruct (fs !! []) as [[|]|]; try done. by intros [= <-].
  - destruct (fs !! (c :: parent)) as [[|]|] eqn:Hp; try done; [by intros [= <-]|].
    intros Hmk Hq.
    assert (q <> c :: parent) as Hne by (intros ->; congruence).
    destruct (fs !! parent) as [[|]|]; try done.
    + injection Hmk as <-. by rewrite lookup_insert_ne.
    + destruct (mkdir parent fs) as [fs1|] eqn:Hrec; [|done]. simpl in Hmk.
      injection Hmk as <-. rewrite lookup_insert_ne by done. by apply (IH fs).
Qed.

Lemma write_text_Ok (p : path) (content : pystr) (fs fs' : fsys) :
  write_text p content fs = Ok fs' -> fs' = <[p := File content]> fs.
Proof.
  unfold write_text. destruct p as [|c parent].
  - by destruct (fs !! []) as [[|]|].
  - destruct (fs !! (c :: parent)) as [[|]|]; try done;
      destruct (fs !! parent) as [[|]|]; try done; by intros [= <-].
Qed.

Lemma paths_differ (n m : pystr) (p q : path) :
  length p <> length q \/ n <> m -> n :: p <> m :: q.
Proof. intros [Hlen|Hne] [= -> ->]; done. Qed.

Lemma mkdir_child (c : pystr) (parent : path) (fs : fsys) :
  fs !! (c :: parent) = None -> fs !! parent = Some Directory ->
  mkdir (c :: parent) fs = Ok (<[c :: parent := Directory]> fs).
Proof. intros Hp Hparent. simpl. by rewrite Hp, Hparent. Qed.

Lemma write_text_child (c : pystr) (parent : path) (content : pystr) (fs : fsys) :
  fs !! (c :: parent) = None -> fs !! parent = Some Directory ->
  write_text (c :: parent) content fs = Ok (<[c :: parent := File content]> fs).
Proof. intros Hp Hparent. unfold write_text. by rewrite Hp, Hparent. Qed.

Ltac paths_differ :=
  apply paths_differ; first [left; simpl; lia | right; by vm_compute].

Lemma create_skill_scaffold_fresh (n description : pystr) (out : path) (fs : fsys) :
  fs !! out = Some Directory ->
  (forall p, (n :: out) `suffix_of` p -> fs !! p = None) ->
  create_skill_scaffold generate_skill_md generate_readme n description out fs
  = (<[py ".gitkeep" :: py "scripts" :: n :: out := File gitkeep]>
       (<[py "README.md" :: py "examples" :: n :: out :=
            File (generate_readme n description)]>
          (<[py "SKILL.md" :: n :: out := File (generate_skill_md n description)]>
             (<[py "examples" :: n :: out := Directory]>
                (<[py "scripts" :: n :: out := Directory]>
                   (<[n :: out := Directory]> fs))))),
     Ok (n :: out)).
Proof.
  intros Hout Hfresh. unfold create_skill_scaffold, exists_.
  rewrite (Hfresh (n :: out)) by done.
  assert (fs !! (py "scripts" :: n :: out) = None) as Hs
    by (apply Hfresh; by exists [py "scripts"]).
  assert (fs !! (py "examples" :: n :: out) = None) as He
    by (apply Hfresh; by exists [py "examples"]).
  assert (fs !! (py "SKILL.md" :: n :: out) = None) as Hk
    by (apply Hfresh; by exists [py "SKILL.md"]).
  assert (fs !! (py "README.md" :: py "examples" :: n :: out) = None) as Hr
    by (apply Hfresh; by exists [py "README.md"; py "examples"]).
  assert (fs !! (py ".gitkeep" :: py "scripts" :: n :: out) = None) as Hg
    by (apply Hfresh; by exists [py ".gitkeep"; py "scripts"]).
  cbn [for_each].
  rewrite (mkdir_child n out) by (by apply Hfresh || done).
  rewrite (mkdir_child (py "scripts") (n :: out));
    [|by rewrite lookup_insert_ne by paths_differ|by rewrite lookup_insert_eq].
  rewrite (mkdir_child (py "examples") (n :: out));
    [|by rewrite !lookup_insert_ne by paths_differ
     |by rewrite lookup_insert_ne, lookup_insert_eq by paths_differ].
  cbn [for_each fst snd].
  rewrite (write_text_child (py "SKILL.md") (n :: out));
    [|by rewrite !lookup_insert_ne by paths_differ
     |by rewrite !lookup_insert_ne, lookup_insert_eq by paths_differ].
  rewrite (write_text_child (py "README.md") (py "examples" :: n :: out));
    [|by rewrite !lookup_insert_ne by paths_differ
     |by rewrite lookup_insert_ne, lookup_insert_eq by paths_differ].
  rewrite (write_text_child (py ".gitkeep") (py "scripts" :: n :: out));
    [|by rewrite !lookup_insert_ne by paths_differ
     |by rewrite !lookup_insert_ne, lookup_insert_eq by paths_differ].
  done.
Qed.

(** The whole of a run on a fresh target. *)
Lemma run_fresh (a : args) (fs fs1 : fsys) :
  fst (validate_name (name a)) = true ->
  fst (validate_description (description a)) = true ->
  mkdir (resolve (output a)) fs = Ok fs1 ->
  (forall p, (name a :: resolve (output a)) `suffix_of` p -> fs !! p = None) ->
  let target := name a :: resolve (output a) in
  run_main a fs
  = (<[py ".gitkeep" :: py "scripts" :: target := File gitkeep]>
       (<[py "README.md" :: py "examples" :: target :=
            File (generate_readme (name a) (description a))]>
          (<[py "SKILL.md" :: target :=
               File (generate_skill_md (name a) (description a))]>
             (<[py "examples" :: target := Directory]>
                (<[py "scripts" :: target := Directory]>
                   (<[target := Directory]> fs1))))),
     (if exists_ fs (resolve (output a)) then [] else [CreatingOutputDirectory])
       ++ [Created target],
     Return 0).
Proof.
  intros Hname Hdesc Hmk Hfresh target. unfold main.
  destruct (validate_name (name a)) as [valid msg]; simpl in Hname; subst valid.
  destruct (validate_description (description a)) as [valid msg'];
    simpl in Hdesc; subst valid.
  cbv beta iota zeta. simpl negb. cbv iota.
  assert (fs1 !! resolve (output a) = Some Directory) as Hout
    by (by eapply mkdir_is_dir).
  assert (forall p, target `suffix_of` p -> fs1 !! p = None) as Hfresh1.
  { intros p Hp. rewrite (mkdir_other _ _ _ _ Hmk); [by apply Hfresh|].
    by eapply below_not_above. }
  pose proof (create_skill_scaffold_fresh (name a) (description a) _ fs1 Hout Hfresh1)
    as Hcreate.
  destruct (exists_ fs (resolve (output a))) eqn:Hex; simpl negb; cbv iota.
  - assert (fs1 = fs) as ->.
    { unfold exists_ in Hex. destruct (resolve (output a)) as [|c parent]; simpl in Hmk.
      - destruct (fs !! []) as [[|]|]; try done. by injection Hmk.
      - destruct (fs !! (c :: parent)) as [[|]|]; try done. by injection Hmk. }
    by rewrite Hcreate.
  - rewrite Hmk. by rewrite Hcreate.
Qed.


(** X5. Status 0 is never returned on a half-made skill: when a run
    ends with status 0, both inputs passed validation, the target did
    not exist before, and afterwards the skill directory, [scripts] and
    [examples] are directories and the three files hold their
    contents. *)
Theorem exit_zero_means_scaffolded (a : args) (fs : fsys) :
  snd (run_main a fs) = Return 0 ->
  let target := name a :: resolve (output a) in
  let fs' := fst (fst (run_main a fs)) in
  fst (validate_name (name a)) = true
  /\ fst (validate_description (description a)) = true
  /\ fs !! target = None
  /\ fs' !! target = Some Directory
  /\ fs' !! (py "scripts" :: target) = Some Directory
  /\ fs' !! (py "examples" :: target) = Some Directory
  /\ fs' !! (py "SKILL.md" :: target)
      = Some (File (generate_skill_md (name a) (description a)))
  /\ fs' !! (py "README.md" :: py "examples" :: target)
      = Some (File (generate_readme (name a) (description a)))
  /\ fs' !! (py ".gitkeep" :: py "scripts" :: target) = Some (File gitkeep).
Proof.
  intros Hzero target fs'. subst fs'. revert Hzero. unfold main.
  destruct (validate_name (name a)) as [[|] msg]; [|done].
  destruct (validate_description (description a)) as [[|] msg']; [|done].
  cbv beta iota zeta. simpl negb. cbv iota.
  assert ((exists fs1 out,
             (if negb (exists_ fs (resolve (output a)))
              then (mkdir (resolve (output a)) fs, [CreatingOutputDirectory])
              else (Ok fs, [])) = (Ok fs1, out)
             /\ fs1 !! target = fs !! target)
          \/ (exists e out,
             (if negb (exists_ fs (resolve (output a)))
              then (mkdir (resolve (output a)) fs, [CreatingOutputDirectory])
              else (Ok fs, [])) = (Raise e, out)))
    as [(fs1 & out & -> & Hsame)|(e & out & ->)].
  { destruct (exists_ fs (resolve (output a))); simpl.
    { left. exists fs, (@nil report). split; reflexivity. }
    destruct (mkdir (resolve (output a)) fs) as [fs1|e] eqn:Hmk.
    - left. exists fs1, [CreatingOutputDirectory]. split; [reflexivity|].
      apply (mkdir_other _ _ _ _ Hmk). by apply (below_not_above _ _ (name a)).
    - right. exists e, [CreatingOutputDirectory]. reflexivity. }
  2: done.
  unfold create_skill_scaffold, exists_. fold target.
  destruct (fs1 !! target) eqn:Htarget; [done|].
  cbn [for_each].
  destruct (mkdir target fs1) as [fs2|e] eqn:Hm1; [|by destruct e].
  destruct (mkdir (py "scripts" :: target) fs2) as [fs3|e] eqn:Hm2; [|by destruct e].
  destruct (mkdir (py "examples" :: target) fs3) as [fs4|e] eqn:Hm3; [|by destruct e].
  cbn [for_each fst snd].
  destruct (write_text (py "SKILL.md" :: target) _ fs4) as [fs5|e] eqn:Hw1;
    [|by destruct e].
  destruct (write_text (py "README.md" :: _) _ fs5) as [fs6|e] eqn:Hw2;
    [|by destruct e].
  destruct (write_text (py ".gitkeep" :: _) _ fs6) as [fs7|e] eqn:Hw3;
    [|by destruct e].
  intros _. simpl.
  apply write_text_Ok in Hw1 as ->, Hw2 as ->, Hw3 as ->.
  pose proof (mkdir_is_dir _ _ _ Hm1) as Ht.
  pose proof (mkdir_is_dir _ _ _ Hm2) as Hs.
  pose proof (mkdir_is_dir _ _ _ Hm3) as He.
  apply (mkdir_preserved _ _ _ _ _ Hm2), (mkdir_preserved _ _ _ _ _ Hm3) in Ht.
  apply (mkdir_preserved _ _ _ _ _ Hm3) in Hs.
  subst target. split_and!; try done.
  - by rewrite !lookup_insert_ne by paths_differ.
  - by rewrite !lookup_insert_ne by paths_differ.
  - by rewrite !lookup_insert_ne by paths_differ.
  - by rewrite !lookup_insert_ne, lookup_insert_eq by paths_differ.
  - by rewrite lookup_insert_ne, lookup_insert_eq by paths_differ.
  - by rewrite lookup_insert_eq.
Qed.

(** X6. Running the scaffolder a second time with the same arguments
    after a run on a fresh target ends with status 1, reports that the
    target exists, and leaves the file system of the first run as it
    is. *)
Theorem second_run_collides (a : args) (fs fs1 : fsys) :
  fst (validate_name (name a)) = true ->
  fst (validate_description (description a)) = true ->
  mkdir (resolve (output a)) fs = Ok fs1 ->
  (forall p, (name a :: resolve (output a)) `suffix_of` p -> fs !! p = None) ->
  run_main a (fst (fst (run_main a fs)))
  = (fst (fst (run_main a fs)), [AlreadyExists], Return 1).
Proof.
  intros Hname Hdesc Hmk Hfresh.
  rewrite (run_fresh a fs fs1) by done. cbn [fst snd].
  assert (fs1 !! resolve (output a) = Some Directory) as Hout
    by (by eapply mkdir_is_dir).
  unfold main.
  destruct (validate_name (name a)) as [valid msg]; simpl in Hname; subst valid.
  destruct (validate_description (description a)) as [valid msg'];
    simpl in Hdesc; subst valid.
  cbv beta iota zeta. simpl negb. cbv iota.
  unfold exists_ at 1.
  rewrite !lookup_insert_ne, Hout
    by (intros Heq; apply (f_equal length) in Heq; simpl in Heq; lia).
  simpl negb. cbv iota.
  unfold create_skill_scaffold, exists_.
  by rewrite !lookup_insert_ne, lookup_insert_eq by paths_differ.
Qed.

End ScaffoldRun.


Lemma exit_zero_means_scaffolded_witness :
  let resolve := fun _ : pystr => [py "skills"] in
  let template := fun name description : pystr => name ++ description in
  let a := {| GenerateSkill.name := py "excel-handler";
              GenerateSkill.description := py "Handle Excel files";
              GenerateSkill.output := py "skills" |} in
  let fs : GenerateSkill.fsys := {[ [] := Directory ]} in
  fst (fst (GenerateSkill.main resolve template template a fs))
    !! [py "SKILL.md"; py "excel-handler"; py "skills"]
  = Some (File (py "excel-handlerHandle Excel files")).
Proof.
  intros resolve template a fs.
  destruct (exit_zero_means_scaffolded resolve template template a fs)
    as (_ & _ & _ & _ & _ & _ & Hskill & _); [by vm_compute|].
  exact Hskill.
Defined.

Lemma second_run_collides_witness :
  let resolve := fun _ : pystr => [py "skills"] in
  let template := fun name description : pystr => name ++ description in
  let a := {| GenerateSkill.name := py "excel-handler";
              GenerateSkill.description := py "Handle Excel files";
              GenerateSkill.output := py "skills" |} in
  let fs : GenerateSkill.fsys := {[ [] := Directory ]} in
  snd (GenerateSkill.main resolve template template a
         (fst (fst (GenerateSkill.main resolve template template a fs))))
  = GenerateSkill.Return 1.
Proof.
  intros resolve template a fs.
  rewrite (second_run_collides resolve template template a fs
             {[ [] := Directory; [py "skills"] := Directory ]}); [done..| |].
  - by vm_compute.
  - intros p [k ->]. apply lookup_singleton_ne. by destruct k.
Defined.

(** ** More on deep_merge *)

Section DeepMergeMore.

Local Arguments merge_step : simpl never.

Lemma dict_set_new {A : Type} key (v : A) (d : list (pystr * A)) :
  dict_get key d = None -> dict_set key v d = d ++ [(key, v)].
Proof.
  induction d as [|[k w] d IH]; simpl; [done|].
  destruct (decide (k = key)); [done|]. intros Hget. by rewrite IH.
Qed.

Lemma merge_items_fresh rec (items acc : dict) :
  NoDup items.*1 -> (forall k, k ∈ items.*1 -> k ∉ acc.*1) ->
  fold_left (merge_step rec) items acc = acc ++ items.
Proof.
  revert acc. induction items as [|[key v] items IH]; intros acc; csimpl.
  - intros _ _. by rewrite app_nil_r.
  - intros [Hkey Hnd]%NoDup_cons Hdisj.
    assert (dict_get key acc = None) as Hget.
    { apply dict_get_None, Hdisj, elem_of_cons. by left. }
    rewrite merge_step_set, Hget, (dict_set_new _ _ _ Hget), IH; [|done|].
    + by rewrite <- app_assoc.
    + intros k Hk. rewrite fmap_app. intros [Hin|Hin%list_elem_of_singleton]%elem_of_app.
      * apply (Hdisj k); [apply elem_of_cons; by right|done].
      * by subst k.
Qed.

(** X7. An empty mapping is neutral on both sides of [deep_merge], and
    so [load_merged_config] with one layer missing or empty returns the
    other layer as it is. *)
Theorem merged_config_single_layer (env : environ) (fs : yaml_files) (d : dict) :
  NoDup d.*1 ->
  let base := load_yaml_file fs (Some (getenv env (py "CONFIG_BASE_PATH") [])) in
  let over := load_yaml_file fs (Some (getenv env (py "CONFIG_ENV_PATH") [])) in
  deep_merge d [] = d /\ deep_merge [] d = d
  /\ (base = Ok (VDict d) -> over = Ok (VDict []) ->
      load_merged_config env fs = Ok (VDict d))
  /\ (base = Ok (VDict []) -> over = Ok (VDict d) ->
      load_merged_config env fs = Ok (VDict d)).
Proof.
  intros Hnd base over.
  assert (deep_merge [] d = d) as Hleft.
  { rewrite deep_merge_unfold, merge_items_fresh; [done..|].
    intros k _. apply not_elem_of_nil. }
  split_and!; [done..| |].
  - intros Hb Ho. unfold load_merged_config. fold base over. by rewrite Hb, Ho.
  - intros Hb Ho. unfold load_merged_config. fold base over. rewrite Hb, Ho. simpl.
    by rewrite Hleft.
Qed.

Lemma merged_config_single_layer_witness :
  let d := [(py "app", VDict [(py "max_workers", VInt 8)])] in
  let fs : yaml_files := {[py "env.yaml" := File (Some (VDict d))]} in
  let env : environ := {[py "CONFIG_ENV_PATH" := py "env.yaml"]} in
  load_merged_config env fs = Ok (VDict d).
Proof.
  intros d fs env.
  destruct (merged_config_single_layer env fs d) as (_ & _ & _ & Hover).
  - apply (bool_decide_unpack _). by vm_compute.
  - apply Hover; by vm_compute.
Defined.

Lemma filter_agree {A : Type} (P Q : A -> Prop)
    `{!forall x, Decision (P x), !forall x, Decision (Q x)} (l : list A) :
  (forall x, x ∈ l -> P x <-> Q x) -> filter P l = filter Q l.
Proof.
  induction l as [|x l IH]; intros Hagree; [done|].
  rewrite !filter_cons.
  rewrite IH by (intros y Hy; apply Hagree, elem_of_cons; by right).
  assert (P x <-> Q x) as Hx by (apply Hagree, elem_of_cons; by left).
  destruct (decide (P x)), (decide (Q x)); tauto.
Qed.

Lemma merge_items_keys rec (items acc : dict) :
  NoDup items.*1 ->
  (fold_left (merge_step rec) items acc).*1
  = acc.*1 ++ filter (fun k => k ∉ acc.*1) items.*1.
Proof.
  revert acc. induction items as [|[key v] items IH]; intros acc; csimpl.
  - intros _. by rewrite app_nil_r.
  - intros [Hkey Hnd]%NoDup_cons. rewrite IH by done.
    rewrite merge_step_set, dict_set_keys. unfold dict_contains.
    destruct (dict_get key acc) as [w|] eqn:Hget.
    + rewrite filter_cons_False; [done|]. intros Hnot. apply Hnot.
      apply dict_get_Some_elem in Hget. apply list_elem_of_fmap. by exists (key, w).
    + apply dict_get_None in Hget. rewrite filter_cons_True by done.
      rewrite <- app_assoc. simpl. do 2 f_equal.
      apply filter_agree. intros k Hk. rewrite elem_of_app, list_elem_of_singleton.
      split; [tauto|]. intros Hnot [?| ->]; done.
Qed.

(** X8. [deep_merge] keeps the keys of [base] in their order and appends
    the keys that only [override] has, in the order of [override]: no key
    is lost, and none is listed twice. *)
Theorem deep_merge_keys (base override : dict) :
  NoDup override.*1 ->
  (deep_merge base override).*1
  = base.*1 ++ filter (fun k => k ∉ base.*1) override.*1.
Proof. intros Hnd. rewrite deep_merge_unfold. by apply merge_items_keys. Qed.

Lemma deep_merge_keys_witness :
  let base := [(py "b", VInt 1); (py "a", VInt 2)] in
  let override := [(py "c", VInt 3); (py "a", VNone)] in
  (deep_merge base override).*1 = [py "b"; py "a"; py "c"].
Proof.
  intros base override. rewrite (deep_merge_keys base override).
  - by vm_compute.
  - apply (bool_decide_unpack _). by vm_compute.
Defined.

(** X9. A value of [override] that is not a mapping wins at its whole
    key path: whatever [base] holds there or on the way, the merge has
    the value of [override] at that path. *)
Theorem override_leaf_wins (keys : list pystr) (base override : dict) (v : value) :
  wf_dict override = true -> keys <> [] ->
  get_path keys (VDict override) = Some v -> is_dict v = false ->
  get_path keys (VDict (deep_merge base override)) = Some v.
Proof.
  revert base override. induction keys as [|key keys IH]; [done|].
  intros base override Hwf _ Hpath Hleaf. simpl in *.
  destruct (dict_get key override) as [v1|] eqn:Hget; [|done].
  pose proof Hwf as [Hnd _]%wf_dict_iff.
  rewrite (deep_merge_key base override key v1 Hnd Hget).
  destruct keys as [|key' keys].
  - simpl in *. injection Hpath as ->.
    destruct (dict_get key base) as [[]|]; try done. by destruct v.
  - destruct v1 as [| | | | |o|]; try done.
    destruct (dict_get key base) as [[| | | | |b|]|]; try done.
    apply IH; [|done..]. by apply (wf_dict_get override key).
Qed.

Lemma override_leaf_wins_witness :
  let base := [(py "app", VDict [(py "log", VDict [(py "level", VInt 1)])])] in
  let override := [(py "app", VDict [(py "log", VDict [(py "level", VNone)])])] in
  get_path [py "app"; py "log"; py "level"] (VDict (deep_merge base override))
  = Some VNone.
Proof.
  intros base override.
  by apply (override_leaf_wins [py "app"; py "log"; py "level"] base override VNone).
Defined.

(** X10. [deep_merge] is not associative: a scalar in the middle layer
    cuts the mapping of the first layer off from the third. *)
Theorem deep_merge_not_associative :
  ~ (forall a b c : dict,
       wf_dict a = true -> wf_dict b = true -> wf_dict c = true ->
       deep_merge (deep_merge a b) c = deep_merge a (deep_merge b c)).
Proof.
  intros Hassoc.
  specialize (Hassoc [(py "k", VDict [(py "x", VInt 1)])]
                     [(py "k", VInt 5)]
                     [(py "k", VDict [(py "y", VInt 2)])]
                     eq_refl eq_refl eq_refl).
  vm_compute in Hassoc. discriminate Hassoc.
Qed.

End DeepMergeMore.

(** ** More on load_dotenv *)

Section DotenvMore.
Implicit Types (env : environ) (lines : list pystr) (key k v : pystr).

Lemma load_lines_bound lines env :
  (forall k v, (k, v) ∈ omap parse_line lines -> is_Some (env !! k)) ->
  load_lines lines env = Ok env.
Proof.
  induction lines as [|line lines IH]; intros Hbound; simpl; [done|].
  assert (load_line env line = Ok env) as ->.
  { unfold load_line. destruct (parse_line line) as [[key v]|] eqn:Hp; [|done].
    destruct (Hbound key v) as [old Hold].
    { simpl. rewrite Hp. apply elem_of_cons. by left. }
    unfold setdefault. by rewrite Hold. }
  simpl. apply IH. intros k v Hin. apply (Hbound k v). simpl.
  destruct (parse_line line); [apply elem_of_cons; by right|done].
Qed.

(** X11. Loading the same dotenv file again changes nothing: after a
    load that completed, a second load of the file completes and leaves
    the environment as the first one made it. *)
Theorem load_dotenv_twice (fs : gmap pystr (entry (list pystr)))
    (env_file : pystr) env env' :
  load_dotenv fs env_file env = Ok env' ->
  load_dotenv fs env_file env' = Ok env'.
Proof.
  unfold load_dotenv. destruct (fs !! env_file) as [[|lines]|]; try done.
  intros Hload. apply load_lines_bound. intros k v Hin.
  rewrite (load_lines_lookup _ _ _ k Hload).
  destruct (env !! k); [by eexists|].
  destruct (dict_get k (omap parse_line lines)) eqn:Hget; [by eexists|].
  apply dict_get_None in Hget. exfalso. apply Hget.
  apply list_elem_of_fmap. by exists (k, v).
Qed.

Lemma load_dotenv_twice_witness :
  let fs : gmap pystr (entry (list pystr)) :=
    {[py ".env" := File [py "A=1"; py "A=2"; py "B = x"]]} in
  exists env',
    load_dotenv fs (py ".env") ∅ = Ok env'
    /\ load_dotenv fs (py ".env") env' = Ok env'.
Proof.
  intros fs. exists {[py "A" := py "1"; py "B" := py "x"]}.
  assert (load_dotenv fs (py ".env") ∅ = Ok {[py "A" := py "1"; py "B" := py "x"]})
    as Hload by (by vm_compute).
  split; [exact Hload|]. exact (load_dotenv_twice fs (py ".env") ∅ _ Hload).
Defined.

Lemma split_first_spec c (s before after : pystr) :
  split_first c s = Some (before, after) <->
  s = before ++ c :: after /\ c ∉ before.
Proof.
  revert before. induction s as [|c' s IH]; intros before; simpl.
  - split; [done|]. intros [Heq _]. by destruct before.
  - destruct (N.eqb_spec c' c) as [->|Hne].
    + split.
      * intros Heq. injection Heq as <- <-. split; [done|]. apply not_elem_of_nil.
      * intros [Heq Hnot]. destruct before as [|c'' before]; simpl in Heq.
        -- injection Heq as ->. done.
        -- injection Heq as -> _. exfalso. apply Hnot, elem_of_cons. by left.
    + split.
      * destruct (split_first c s) as [[b a]|] eqn:Hsplit; [|done].
        intros Heq. injection Heq as <- ->.
        destruct (proj1 (IH b) eq_refl) as [-> Hnot].
        split; [done|]. apply not_elem_of_cons. split; [congruence|done].
      * intros [Heq Hnot]. destruct before as [|c'' before]; simpl in Heq.
        -- injection Heq as -> _. done.
        -- injection Heq as -> Heq. apply not_elem_of_cons in Hnot as [_ Hnot].
           by rewrite (proj2 (IH before) (conj Heq Hnot)).
Qed.

(** X12. What a line of a dotenv file binds: the line, trimmed, is not
    empty, does not start with [#], and reads [before=after] with no [=]
    in [before]; the key is [before] trimmed and the value is [after]
    trimmed. So a key never holds [=], and a value may. *)
Theorem parse_line_binding (line key v : pystr) :
  parse_line line = Some (key, v) <->
  strip line <> [] /\ startswith_char 35 (strip line) = false
  /\ exists before after,
       strip line = before ++ 61%N :: after /\ (61%N ∉ before)
       /\ key = strip before /\ v = strip after.
Proof.
  unfold parse_line. split.
  - case_bool_decide as Hempty; [done|].
    destruct (startswith_char 35 (strip line)); [done|].
    destruct (contains_char 61 (strip line)); [|done]. simpl.
    destruct (split_first 61 (strip line)) as [[before after]|] eqn:Hsplit; [|done].
    intros [= <- <-]. apply split_first_spec in Hsplit as [Heq Hnot].
    split_and!; [done..|]. by exists before, after.
  - intros (Hne & Hhash & before & after & Heq & Hnot & -> & ->).
    rewrite bool_decide_eq_false_2 by done. rewrite Hhash.
    assert (contains_char 61 (strip line) = true) as ->.
    { apply contains_char_elem. rewrite Heq. apply elem_of_app. right.
      apply elem_of_cons. by left. }
    simpl. by rewrite (proj2 (split_first_spec 61 _ before after) (conj Heq Hnot)).
Qed.

End DotenvMore.

(** ** More on Settings *)

Section SettingsMore.
Implicit Types (env : environ) (fs : yaml_files) (data : dict).


Lemma adopt_section_lookup yaml_config section data data' k :
  adopt_section yaml_config section data = Ok data' ->
  dict_get k data'
  = match dict_get k data with
    | Some v => Some v
    | None =>
        if decide (section = k)
        then match yaml_config with VDict y => dict_get k y | _ => None end
        else None
    end.
Proof.
  unfold adopt_section, dict_contains. destruct yaml_config as [| | | |l|y|].
  1-4, 7: intros [= <-]; destruct (dict_get k data); [done|]; by case_decide.
  - destruct (_ && _); [done|]. intros [= <-].
    destruct (dict_get k data); [done|]. by case_decide.
  - destruct (dict_get section y) as [v|] eqn:Hy.
    + intros [= <-]. destruct (dict_get section data) as [w|] eqn:Hd.
      * destruct (dict_get k data) eqn:Hk; [done|]. case_decide; [congruence|done].
      * destruct (decide (section = k)) as [->|Hne].
        -- by rewrite dict_get_set_eq, Hd.
        -- rewrite dict_get_set_ne by done. by destruct (dict_get k data).
    + intros [= <-]. destruct (dict_get k data); [done|].
      case_decide; [by subst|done].
Qed.

Lemma adopt_section_mapping (y data : dict) section :
  exists data', adopt_section (VDict y) section data = Ok data'.
Proof. unfold adopt_section. destruct (dict_get section y); by eexists. Qed.

Lemma Settings_sections_get env fs data data' yaml_config key :
  load_merged_config env fs = Ok yaml_config ->
  Settings_sections env fs data = Ok data' ->
  dict_get key data'
  = match dict_get key data with
    | Some v => Some v
    | None =>
        if bool_decide (key ∈ [py "database"; py "api"; py "app"; py "logging"])
        then match yaml_config with VDict y => dict_get key y | _ => None end
        else None
    end.
Proof.
  intros Hy. unfold Settings_sections. rewrite Hy. simpl.
  destruct (truthy yaml_config) eqn:Htruthy.
  - destruct (adopt_section yaml_config (py "database") data) as [d1|] eqn:H1; [|done].
    simpl.
    destruct (adopt_section yaml_config (py "api") d1) as [d2|] eqn:H2; [|done]. simpl.
    destruct (adopt_section yaml_config (py "app") d2) as [d3|] eqn:H3; [|done]. simpl.
    intros H4.
    rewrite (adopt_section_lookup _ _ _ _ key H4), (adopt_section_lookup _ _ _ _ key H3),
      (adopt_section_lookup _ _ _ _ key H2), (adopt_section_lookup _ _ _ _ key H1).
    destruct (dict_get key data); [done|].
    destruct (decide (py "database" = key)) as [<-|Hd];
      [by destruct yaml_config as [| | | | |y|]; try done; destruct (dict_get _ y)|].
    destruct (decide (py "api" = key)) as [<-|Ha];
      [by destruct yaml_config as [| | | | |y|]; try done; destruct (dict_get _ y)|].
    destruct (decide (py "app" = key)) as [<-|Hp];
      [by destruct yaml_config as [| | | | |y|]; try done; destruct (dict_get _ y)|].
    destruct (decide (py "logging" = key)) as [<-|Hl];
      [by destruct yaml_config as [| | | | |y|]; try done; destruct (dict_get _ y)|].
    rewrite bool_decide_eq_false_2; [done|].
    rewrite !elem_of_cons, elem_of_nil. intros [?|[?|[?|[?|[]]]]]; congruence.
  - intros [= <-]. destruct (dict_get key data); [done|].
    case_bool_decide; [|done].
    destruct yaml_config as [| | | | |y|]; try done. by destruct y.
Qed.

Lemma Settings_sections_mapping env fs data (y : dict) :
  load_merged_config env fs = Ok (VDict y) ->
  exists data', Settings_sections env fs data = Ok data'.
Proof.
  intros Hy. unfold Settings_sections. rewrite Hy. cbn [bind].
  destruct (truthy (VDict y)); [|by eexists].
  destruct (adopt_section_mapping y data (py "database")) as [d1 ->]. cbn [bind].
  destruct (adopt_section_mapping y d1 (py "api")) as [d2 ->]. cbn [bind].
  destruct (adopt_section_mapping y d2 (py "app")) as [d3 ->]. cbn [bind].
  apply adopt_section_mapping.
Qed.

(** X14. What the YAML layers add to the keyword data: a section the
    caller gave is kept whole, never merged with the YAML one; of the
    merged configuration only [database], [api], [app] and [logging] are
    taken over, each as a whole, and every other top-level key of the
    YAML files is dropped. With a mapping for merged configuration this
    step does not fail. *)
Theorem Settings_sections_lookup env fs data yaml_config :
  load_merged_config env fs = Ok yaml_config ->
  (is_dict yaml_config = true -> exists data', Settings_sections env fs data = Ok data')
  /\ forall data' key,
       Settings_sections env fs data = Ok data' ->
       dict_get key data'
       = match dict_get key data with
         | Some v => Some v
         | None =>
             if bool_decide (key ∈ [py "database"; py "api"; py "app"; py "logging"])
             then match yaml_config with VDict y => dict_get key y | _ => None end
             else None
         end.
Proof.
  intros Hy. split.
  - destruct yaml_config as [| | | | |y|]; try done. intros _.
    by apply (Settings_sections_mapping env fs data y).
  - intros data' key. by apply Settings_sections_get.
Qed.

Lemma Settings_sections_lookup_witness :
  let fs : yaml_files :=
    {[py "base.yaml" :=
        File (Some (VDict [(py "app", VDict [(py "max_workers", VInt 10)]);
                           (py "extra", VInt 1);
                           (py "api", VDict [(py "timeout", VInt 9)])]))]} in
  let env : environ := {[py "CONFIG_BASE_PATH" := py "base.yaml"]} in
  let data := [(py "app", VDict [(py "batch_size", VInt 5)])] in
  exists data',
    Settings_sections env fs data = Ok data'
    /\ dict_get (py "app") data' = Some (VDict [(py "batch_size", VInt 5)])
    /\ dict_get (py "api") data' = Some (VDict [(py "timeout", VInt 9)])
    /\ dict_get (py "extra") data' = None.
Proof.
  intros fs env data.
  assert (load_merged_config env fs
          = Ok (VDict [(py "app", VDict [(py "max_workers", VInt 10)]);
                       (py "extra", VInt 1);
                       (py "api", VDict [(py "timeout", VInt 9)])])) as Hy
    by (by vm_compute).
  destruct (Settings_sections_lookup env fs data _ Hy) as [Hruns Hget].
  destruct (Hruns eq_refl) as [data' Hsections].
  exists data'. split; [exact Hsections|].
  split_and!.
  - by rewrite (Hget data' (py "app") Hsections).
  - by rewrite (Hget data' (py "api") Hsections).
  - by rewrite (Hget data' (py "extra") Hsections).
Defined.

(** [db_url] puts the user, the password and the host into the URL as
    they are, with no escaping: text after an [@] in the password reads
    the same as text before an [@] in the host, so two different settings
    give one URL. *)
Lemma db_url_not_escaped (u p x h : pystr) (n : Z) :
  db_url {| host := h; port := n; user := u; password := p ++ py "@" ++ x |}
  = db_url {| host := x ++ py "@" ++ h; port := n; user := u; password := p |}.
Proof. unfold db_url. simpl. by rewrite <- !app_assoc. Qed.

End SettingsMore.

(** ** What the scaffolder leaves alone *)

Section ScaffoldFrame.
Import GenerateSkill.

Variable resolve : pystr -> path.
Variables generate_skill_md generate_readme : pystr -> pystr -> pystr.

Lemma suffix_cons_cases {A : Type} (l1 l2 : list A) (x : A) :
  l1 `suffix_of` x :: l2 -> l1 = x :: l2 \/ l1 `suffix_of` l2.
Proof.
  intros [[|y k] Heq]; [by left|]. right. injection Heq as -> ->. by exists k.
Qed.

Lemma for_each_frame {A : Type} (f : A -> fsys -> Py.result fsys) (l : list A)
    (p : path) (fs fs' : fsys) r :
  (forall x fs0 fs1, x ∈ l -> f x fs0 = Ok fs1 -> fs1 !! p = fs0 !! p) ->
  for_each f l fs = (fs', r) -> fs' !! p = fs !! p.
Proof.
  revert fs. induction l as [|x l IH]; intros fs Hstep; simpl.
  - by intros [= <- _].
  - destruct (f x fs) as [fs1|e] eqn:Hf; [|by intros [= <- _]].
    intros Hrest. rewrite (IH fs1); [|by intros; eapply Hstep; [apply elem_of_cons; right|]|done].
    eapply Hstep; [|done]. apply elem_of_cons. by left.
Qed.

(** X16. A run, whatever its outcome, changes nothing outside the
    output directory's own chain of ancestors (made when missing) and the
    target directory's subtree. *)
Theorem scaffolder_frame (a : args) (fs : fsys) (p : path) :
  ~ p `suffix_of` resolve (output a) ->
  ~ (name a :: resolve (output a)) `suffix_of` p ->
  fst (fst (main resolve generate_skill_md generate_readme a fs)) !! p = fs !! p.
Proof.
  intros Habove Hbelow. unfold main.
  destruct (validate_name (name a)) as [[|] msg]; [|done].
  destruct (validate_description (description a)) as [[|] msg']; [|done].
  cbv beta iota zeta. simpl negb. cbv iota.
  set (out := resolve (output a)) in *. set (n := name a) in *.
  assert (forall c, ~ p `suffix_of` c :: n :: out) as Hchild.
  { intros c [->|[->|Hp]%suffix_cons_cases]%suffix_cons_cases; [| |done].
    - apply Hbelow. by exists [c].
    - by apply Hbelow. }
  assert (forall fs1 : fsys,
            fs1 !! p = fs !! p ->
            fst (create_skill_scaffold generate_skill_md generate_readme n
                   (description a) out fs1) !! p = fs !! p) as Hcreate.
  { intros fs1 Hfs1. unfold create_skill_scaffold.
    destruct (exists_ fs1 (n :: out)); [done|].
    destruct (for_each mkdir _ fs1) as [fs2 r1] eqn:Hdirs.
    assert (fs2 !! p = fs !! p) as Hfs2.
    { rewrite <- Hfs1. eapply for_each_frame; [|exact Hdirs].
      intros d fs0 fs3 Hd Hmk. apply (mkdir_other _ _ _ _ Hmk).
      rewrite !elem_of_cons, elem_of_nil in Hd.
      destruct Hd as [->|[->|[->|[]]]]; [|apply Hchild..].
      intros [->|Hp]%suffix_cons_cases; [by apply Hbelow|done]. }
    destruct r1 as [[]|e]; [|done].
    destruct (for_each _ _ fs2) as [fs3 r] eqn:Hfiles.
    assert (fs3 !! p = fs !! p) as Hfs3.
    { rewrite <- Hfs2. eapply for_each_frame; [|exact Hfiles].
      intros [q c] fs0 fs4 Hq ->%write_text_Ok. simpl.
      apply lookup_insert_ne. intros Heq. apply Hbelow. rewrite <- Heq.
      rewrite !elem_of_cons, elem_of_nil in Hq.
      destruct Hq as [Hq|[Hq|[Hq|[]]]]; injection Hq as -> _.
      - by exists [py "SKILL.md"].
      - by exists [py "README.md"; py "examples"].
      - by exists [py ".gitkeep"; py "scripts"]. }
    by destruct r. }
  destruct (exists_ fs out); simpl negb; cbv iota.
  - specialize (Hcreate fs eq_refl).
    destruct (create_skill_scaffold _ _ _ _ _ fs) as [fs2 [?|e]]; [done|].
    by destruct e.
  - destruct (mkdir out fs) as [fs1|e] eqn:Hmk; [|done].
    specialize (Hcreate fs1 (mkdir_other _ _ _ _ Hmk Habove)).
    destruct (create_skill_scaffold _ _ _ _ _ fs1) as [fs2 [?|e]]; [done|].
    by destruct e.
Qed.

End ScaffoldFrame.

Lemma scaffolder_frame_witness :
  let resolve := fun _ : pystr => [py "skills"] in
  let template := fun name description : pystr => name ++ description in
  let a := {| GenerateSkill.name := py "excel-handler";
              GenerateSkill.description := py "Handle Excel files";
              GenerateSkill.output := py "skills" |} in
  let fs : GenerateSkill.fsys :=
    {[ [] := Directory; [py "notes.txt"] := File (py "mine") ]} in
  fst (fst (GenerateSkill.main resolve template template a fs)) !! [py "notes.txt"]
  = Some (File (py "mine")).
Proof.
  intros resolve template a fs.
  rewrite (scaffolder_frame resolve template template a fs [py "notes.txt"]).
  - by vm_compute.
  - intros [k Hk]. destruct k as [|? [|? ?]]; vm_compute in Hk; discriminate Hk.
  - intros [k Hk]. destruct k as [|? [|? ?]]; vm_compute in Hk; discriminate Hk.
Defined.

(** ** db_url read back *)

Section DbUrl.

Lemma py_inj (s t : string) : py s = py t -> s = t.
Proof.
  unfold py. intros Heq.
  rewrite <- (string_of_list_ascii_of_string s), <- (string_of_list_ascii_of_string t).
  f_equal. revert Heq. generalize (list_ascii_of_string s) (list_ascii_of_string t).
  intros l. induction l as [|a l IH]; intros [|b m]; csimpl; try done.
  intros [= Hab Hlm]. f_equal; [|by apply IH].
  by rewrite <- (ascii_N_embedding a), <- (ascii_N_embedding b), Hab.
Qed.

Lemma str_of_int_inj (n m : Z) : str_of_int n = str_of_int m -> n = m.
Proof.
  unfold str_of_int. intros Heq%py_inj.
  assert (forall z, NilZero.int_of_string (NilZero.string_of_int (Z.to_int z))
                    = Some (Z.to_int z)) as Hparse.
  { intros z. apply NilZero.isi; destruct z as [|p|p]; simpl; try done;
      intros [= Hnil]; by apply DecimalPos.Unsigned.to_uint_nonnil in Hnil. }
  pose proof (Hparse n) as Hn. rewrite Heq, Hparse in Hn. injection Hn as Hn.
  by rewrite <- (DecimalZ.of_to n), <- (DecimalZ.of_to m), Hn.
Qed.

Lemma split_unique c (a1 a2 r1 r2 : pystr) :
  c ∉ a1 -> c ∉ a2 -> a1 ++ c :: r1 = a2 ++ c :: r2 -> a1 = a2 /\ r1 = r2.
Proof.
  intros H1 H2 Heq.
  pose proof (proj2 (split_first_spec c (a1 ++ c :: r1) a1 r1) (conj eq_refl H1)) as Hs1.
  pose proof (proj2 (split_first_spec c (a1 ++ c :: r1) a2 r2) (conj Heq H2)) as Hs2.
  rewrite Hs1 in Hs2. by injection Hs2 as -> ->.
Qed.

(** X17. [db_url] can be read back when the separators are not in the
    fields: for settings whose user and host hold no [:] and whose
    password holds no [@], equal URLs mean equal host, port, user and
    password. *)
Theorem db_url_injective (d1 d2 : DatabaseConfig) :
  (58%N ∉ user d1) -> (64%N ∉ password d1) -> (58%N ∉ host d1) ->
  (58%N ∉ user d2) -> (64%N ∉ password d2) -> (58%N ∉ host d2) ->
  db_url d1 = db_url d2 -> d1 = d2.
Proof.
  destruct d1 as [h1 n1 u1 p1], d2 as [h2 n2 u2 p2]. unfold db_url.
  cbn [user password host port].
  intros Hu1 Hp1 Hh1 Hu2 Hp2 Hh2 Heq.
  apply app_inv_head in Heq.
  change (py ":") with [58%N] in Heq. change (py "@") with [64%N] in Heq.
  cbn [app] in Heq.
  apply split_unique in Heq as [-> Heq]; [|done..].
  apply split_unique in Heq as [-> Heq]; [|done..].
  apply split_unique in Heq as [-> Heq%str_of_int_inj]; [|done..].
  by subst.
Qed.

Lemma db_url_injective_witness :
  let d1 := {| host := py "db.local"; port := 3306; user := py "root";
               password := py "s3cret" |} in
  let d2 := {| host := py "db" ++ py ".local"; port := 3300 + 6;
               user := py "root"; password := py "s3cret" |} in
  (58%N ∉ user d1) /\ d1 = d2.
Proof.
  intros d1 d2.
  assert (58%N ∉ user d1) as Hu by (apply (bool_decide_unpack _); by vm_compute).
  split; [exact Hu|].
  apply (db_url_injective d1 d2); try exact Hu; try reflexivity;
    apply (bool_decide_unpack _); by vm_compute.
Defined.

End DbUrl.

(** ** deep_merge on the object store *)

Section HeapFrame.
Import Heap.

Lemma preserved_refl (h : heap) : preserved h h.
Proof. by intros l obj. Qed.

Lemma preserved_trans (h1 h2 h3 : heap) :
  preserved h1 h2 -> preserved h2 h3 -> preserved h1 h3.
Proof. intros H12 H23 l obj Hl. by apply H23, H12. Qed.

Lemma preserved_alloc (h : heap) (obj : object) : preserved h (h ++ [obj]).
Proof. intros l o Hl. by apply lookup_app_l_Some. Qed.

Lemma setitem_frame (h0 h h' : heap) result key v r :
  h0 !! result = None -> preserved h0 h ->
  setitem result key v h = (h', r) -> preserved h0 h'.
Proof.
  intros Hfresh Hpre. unfold setitem.
  destruct (h !! result) as [[items| |]|]; intros [= <- _]; try done.
  intros l obj Hl. rewrite list_lookup_insert_ne; [by apply Hpre|].
  intros <-. congruence.
Qed.

Lemma merge_item_frame rec (h0 h h' : heap) result key v r :
  (forall x y h1 h2 r', rec x y h1 = (h2, r') -> preserved h1 h2) ->
  h0 !! result = None -> preserved h0 h ->
  merge_item rec result key v h = (h', r) -> preserved h0 h'.
Proof.
  intros Hrec Hfresh Hpre. unfold merge_item.
  destruct (h !! result) as [[items| |]|]; try by intros [= <- _].
  destruct (dict_get key items) as [x|]; [|by apply setitem_frame].
  destruct (is_dict h x && is_dict h v); [|by apply setitem_frame].
  destruct (rec x v h) as [h1 [merged|e]] eqn:Hcall.
  - apply setitem_frame; [done|]. eapply preserved_trans; [done|]. by eapply Hrec.
  - intros [= <- _]. eapply preserved_trans; [done|]. by eapply Hrec.
Qed.

Lemma merge_items_frame rec (h0 : heap) result override size n :
  (forall x y h1 h2 r', rec x y h1 = (h2, r') -> preserved h1 h2) ->
  h0 !! result = None ->
  forall i h h' r,
    preserved h0 h ->
    merge_items rec result override size i n h = (h', r) -> preserved h0 h'.
Proof.
  intros Hrec Hfresh. induction n as [|n IH]; intros i h h' r Hpre; simpl.
  - by intros [= <- _].
  - destruct (h !! override) as [[o| |]|]; try by intros [= <- _].
    case_bool_decide; [|by intros [= <- _]].
    destruct (o !! i) as [[key v]|]; [|by intros [= <- _]].
    destruct (merge_item rec result key v h) as [h1 [[]|e]] eqn:Hitem.
    + apply IH. by eapply merge_item_frame.
    + intros [= <- _]. by eapply merge_item_frame.
Qed.

Lemma deep_merge_frame depth base override (h h' : heap) r :
  deep_merge depth base override h = (h', r) -> preserved h h'.
Proof.
  revert base override h h' r.
  induction depth as [|depth IH]; intros base override h h' r; simpl.
  - intros [= <- _]. apply preserved_refl.
  - destruct base as [| | | |lb]; try (intros [= <- _]; apply preserved_refl).
    destruct (h !! lb) as [[b|b|]|]; try (intros [= <- _]; apply preserved_refl).
    + destruct override as [| | | |lo]; try (intros [= <- _]; apply preserved_alloc).
      destruct ((h ++ [ODict b]) !! lo) as [[o| |]|];
        try (intros [= <- _]; apply preserved_alloc).
      destruct (merge_items _ _ _ _ _ _ _) as [h1 [[]|e]] eqn:Hloop;
        intros [= <- _];
        (eapply (merge_items_frame _ h); [exact IH| |apply preserved_alloc|exact Hloop]);
        by apply lookup_ge_None.
    + destruct override as [| | | |lo]; try (intros [= <- _]; apply preserved_alloc).
      destruct ((h ++ [OList b]) !! lo) as [[[|]| |]|];
        intros [= <- _]; apply preserved_alloc.
Qed.

End HeapFrame.

Section HeapRepr.
Import Heap.

Lemma items_transfer {A B : Type} (R R' : A -> B -> Prop) (xs : list (pystr * A))
    (ys : list (pystr * B)) :
  Forall (fun y => forall x, R x (snd y) -> R' x (snd y)) ys ->
  Forall2 (fun x y => fst x = fst y /\ R (snd x) (snd y)) xs ys ->
  Forall2 (fun x y => fst x = fst y /\ R' (snd x) (snd y)) xs ys.
Proof.
  intros Hall Hxs. induction Hxs as [|x y xs ys [Hk Hxy] _ IH]; [constructor|].
  apply Forall_cons in Hall as [Hy Hall]. constructor; [|by apply IH].
  split; [done|]. by apply Hy.
Qed.

(** A value read through objects that are kept is read the same. *)
Lemma repr_transfer (P Q : nat -> Prop) (h h' : heap) r v :
  (forall l obj, P l -> h !! l = Some obj -> Q l /\ h' !! l = Some obj) ->
  repr P h r v -> repr Q h' r v.
Proof.
  intros Hkeep. revert r.
  induction v as [| | | |vs IH|d IH|d IH] using value_nested_ind; intros r Hr;
    inversion Hr as [ | | | |l rs vs' Hp Hl Hall|l rd d' Hp Hl Hall|l rd d' Hp Hl Hall];
    subst; try constructor.
  - destruct (Hkeep l _ Hp Hl) as [Hq Hl']. apply (repr_list _ _ _ rs); [done..|].
    clear Hl Hl' Hr. induction Hall as [|x y xs ys Hxy _ IHall]; [constructor|].
    apply Forall_cons in IH as [Hy IH]. constructor; [by apply Hy|by apply IHall].
  - destruct (Hkeep l _ Hp Hl) as [Hq Hl']. apply (repr_dict _ _ _ rd); [done..|].
    by apply (items_transfer (repr P h)).
  - destruct (Hkeep l _ Hp Hl) as [Hq Hl']. apply (repr_model _ _ _ rd); [done..|].
    by apply (items_transfer (repr P h)).
Qed.

Lemma repr_is_dict (P : nat -> Prop) (h : heap) r v :
  repr P h r v -> is_dict h r = Py.is_dict v.
Proof. intros Hr. destruct Hr; simpl; try done; by rewrite H0. Qed.

Lemma items_get (P : nat -> Prop) (h : heap) key
    (rd : list (pystr * ref)) (d : dict) :
  Forall2 (fun x y => fst x = fst y /\ repr P h (snd x) (snd y)) rd d ->
  match dict_get key rd, dict_get key d with
  | Some x, Some y => repr P h x y
  | None, None => True
  | _, _ => False
  end.
Proof.
  intros Hall. induction Hall as [|[k x] [k' y] rd d [Hk Hxy] _ IH]; simpl; [done|].
  simpl in Hk. subst k'. by destruct (decide (k = key)).
Qed.

Lemma items_set (P : nat -> Prop) (h : heap) key x y
    (rd : list (pystr * ref)) (d : dict) :
  Forall2 (fun x y => fst x = fst y /\ repr P h (snd x) (snd y)) rd d ->
  repr P h x y ->
  Forall2 (fun x y => fst x = fst y /\ repr P h (snd x) (snd y))
    (dict_set key x rd) (dict_set key y d).
Proof.
  intros Hall Hxy. induction Hall as [|[k x'] [k' y'] rd d [Hk Hxy'] Hrest IH]; simpl.
  - by repeat constructor.
  - simpl in Hk. subst k'. destruct (decide (k = key)); constructor; done.
Qed.

Lemma nesting_item (d : dict) key v :
  (key, v) ∈ d -> (S (nesting v) <= nesting (VDict d))%nat.
Proof.
  simpl. induction d as [|[k w] d IH]; [by intros ?%elem_of_nil|].
  intros [[= <- <-]|Hin]%elem_of_cons; simpl; [lia|].
  specialize (IH Hin). lia.
Qed.

End HeapRepr.

Section HeapAdequacy.
Import Heap.

Local Arguments merge_step : simpl never.

(** One assignment to the result object, once the value to store is
    read through objects other than the result. *)
Lemma setitem_adequate (P : nat -> Prop) (h0 h : heap) key xr yv
    (rd : list (pystr * ref)) (acc : dict) :
  (forall l, P l -> (l < length h0)%nat) ->
  preserved h0 h ->
  h !! length h0 = Some (ODict rd) ->
  Forall2 (fun x y => fst x = fst y
                      /\ repr (fun l => P l \/ (length h0 < l)%nat) h (snd x) (snd y))
    rd acc ->
  repr (fun l => P l \/ (length h0 < l)%nat) h xr yv ->
  exists h',
    setitem (length h0) key xr h = (h', Ok tt)
    /\ preserved h0 h'
    /\ h' !! length h0 = Some (ODict (dict_set key xr rd))
    /\ Forall2 (fun x y => fst x = fst y
                           /\ repr (fun l => P l \/ (length h0 < l)%nat) h' (snd x) (snd y))
         (dict_set key xr rd) (dict_set key yv acc).
Proof.
  intros Hbound Hpre Hres Hitems Hx. unfold setitem. rewrite Hres.
  eexists. split; [done|].
  assert (forall l obj, (P l \/ (length h0 < l)%nat) -> h !! l = Some obj ->
            (P l \/ (length h0 < l)%nat)
            /\ <[length h0 := ODict (dict_set key xr rd)]> h !! l = Some obj) as Hkeep.
  { intros l obj Hl Hobj. split; [done|]. rewrite list_lookup_insert_ne; [done|].
    destruct Hl as [Hl%Hbound|Hl]; lia. }
  split_and!.
  - intros l obj Hl. rewrite list_lookup_insert_ne; [by apply Hpre|].
    apply lookup_lt_Some in Hl. lia.
  - apply list_lookup_insert_eq. by apply lookup_lt_Some in Hres.
  - apply items_set; [|exact (repr_transfer _ _ _ _ _ _ Hkeep Hx)].
    eapply items_transfer; [|exact Hitems].
    apply Forall_forall. intros y _ x Hxy. exact (repr_transfer _ _ _ _ _ _ Hkeep Hxy).
Qed.

Lemma merge_items_adequate rec depth (P : nat -> Prop) (h0 : heap) override
    (ro : list (pystr * ref)) (o : dict) :
  (forall (P' : nat -> Prop) h x y b' o',
     (forall l, P' l -> (l < length h)%nat) ->
     repr P' h x (VDict b') -> repr P' h y (VDict o') ->
     (nesting (VDict o') <= depth)%nat ->
     exists h',
       rec x y h = (h', Ok (RObj (length h)))
       /\ preserved h h'
       /\ repr (fun l => P' l \/ (length h <= l)%nat) h' (RObj (length h))
            (VDict (Settings.deep_merge b' o'))) ->
  (forall l, P l -> (l < length h0)%nat) ->
  h0 !! override = Some (ODict ro) ->
  Forall2 (fun x y => fst x = fst y /\ repr P h0 (snd x) (snd y)) ro o ->
  forall n i h rd acc,
    (i + n = length o)%nat ->
    preserved h0 h ->
    h !! length h0 = Some (ODict rd) ->
    Forall2 (fun x y => fst x = fst y
                        /\ repr (fun l => P l \/ (length h0 < l)%nat) h (snd x) (snd y))
      rd acc ->
    (forall k v, (k, v) ∈ drop i o -> (nesting v <= depth)%nat) ->
    exists h' rd',
      merge_items rec (length h0) override (length ro) i n h = (h', Ok tt)
      /\ preserved h0 h'
      /\ h' !! length h0 = Some (ODict rd')
      /\ Forall2 (fun x y => fst x = fst y
                             /\ repr (fun l => P l \/ (length h0 < l)%nat) h' (snd x) (snd y))
           rd' (fold_left (merge_step Settings.deep_merge) (drop i o) acc).
Proof.
  intros Hrec Hbound Hover Ho.
  induction n as [|n IH]; intros i h rd acc Hin Hpre Hres Hitems Hnest.
  - rewrite drop_ge by lia. simpl. by exists h, rd.
  - assert (is_Some (o !! i)) as [[key v] Hoi] by (apply lookup_lt_is_Some; lia).
    destruct (Forall2_lookup_r _ _ _ _ _ Ho Hoi) as ([key' rv] & Hroi & Hkey & Hrv).
    simpl in Hkey, Hrv. subst key'.
    rewrite (drop_S _ _ _ Hoi) in *. simpl fold_left.
    assert (repr (fun l => P l \/ (length h0 < l)%nat) h rv v) as Hrv'.
    { eapply repr_transfer; [|exact Hrv]. intros l obj Hl Hobj. split; [by left|by apply Hpre]. }
    assert (exists h1 rd1,
              merge_item rec (length h0) key rv h = (h1, Ok tt)
              /\ preserved h0 h1
              /\ h1 !! length h0 = Some (ODict rd1)
              /\ Forall2 (fun x y => fst x = fst y
                            /\ repr (fun l => P l \/ (length h0 < l)%nat) h1 (snd x) (snd y))
                   rd1 (merge_step Settings.deep_merge acc (key, v)))
      as (h1 & rd1 & Hitem & Hpre1 & Hres1 & Hitems1).
    { unfold merge_item. rewrite Hres. rewrite merge_step_set.
      pose proof (items_get _ _ key _ _ Hitems) as Hget.
      destruct (dict_get key rd) as [x|], (dict_get key acc) as [y|]; try done.
      2: { destruct (setitem_adequate P h0 h key rv v rd acc) as (h1 & ? & ? & ? & ?);
             [done..|]. by exists h1, (dict_set key rv rd). }
      rewrite (repr_is_dict _ _ _ _ Hget), (repr_is_dict _ _ _ _ Hrv').
      destruct y as [| | | | |b'|], v as [| | | | |o'|]; simpl;
        try (destruct (setitem_adequate P h0 h key rv _ rd acc Hbound Hpre Hres Hitems Hrv')
               as (h1 & ? & ? & ? & ?); by exists h1, (dict_set key rv rd)).
      destruct (Hrec (fun l => (P l \/ (length h0 < l)%nat) /\ (l < length h)%nat)
                  h x rv b' o') as (h1 & Hcall & Hpre1 & Hmerged).
      - by intros l [_ ?].
      - eapply repr_transfer; [|exact Hget]. intros l obj Hl Hobj.
        split; [|done]. split; [done|]. by apply lookup_lt_Some in Hobj.
      - eapply repr_transfer; [|exact Hrv']. intros l obj Hl Hobj.
        split; [|done]. split; [done|]. by apply lookup_lt_Some in Hobj.
      - apply (Hnest key). apply elem_of_cons. by left.
      - rewrite Hcall.
        assert ((length h0 < length h)%nat) as Hlt by (by apply lookup_lt_Some in Hres).
        destruct (setitem_adequate P h0 h1 key (RObj (length h))
                    (VDict (Settings.deep_merge b' o')) rd acc)
          as (h2 & ? & ? & ? & ?); try done.
        + by eapply preserved_trans.
        + by apply Hpre1.
        + eapply items_transfer; [|exact Hitems].
          apply Forall_forall. intros y _ x' Hxy. eapply repr_transfer; [|exact Hxy].
          intros l obj Hl Hobj. split; [done|]. by apply Hpre1.
        + eapply repr_transfer; [|exact Hmerged]. intros l obj Hl Hobj.
          split; [|done]. destruct Hl as [[Hl _]|Hl]; [done|]. right. lia.
        + by exists h2, (dict_set key (RObj (length h)) rd). }
    destruct (IH (S i) h1 rd1 (merge_step Settings.deep_merge acc (key, v)))
      as (h' & rd' & Hloop & Hpre' & Hres' & Hitems'); try done; [lia| |].
    { intros k w Hkw. apply (Hnest k). apply elem_of_cons. by right. }
    exists h', rd'. split; [|done]. simpl.
    rewrite (Hpre _ _ Hover), bool_decide_eq_true_2 by done.
    by rewrite Hroi, Hitem.
Qed.

Lemma deep_merge_adequate depth (P : nat -> Prop) (h : heap) x y (b o : dict) :
  (forall l, P l -> (l < length h)%nat) ->
  repr P h x (VDict b) -> repr P h y (VDict o) ->
  (nesting (VDict o) <= depth)%nat ->
  exists h',
    deep_merge depth x y h = (h', Ok (RObj (length h)))
    /\ preserved h h'
    /\ repr (fun l => P l \/ (length h <= l)%nat) h' (RObj (length h))
         (VDict (Settings.deep_merge b o)).
Proof.
  revert P h x y b o. induction depth as [|depth IH]; intros P h x y b o Hbound Hx Hy Hdepth.
  - simpl in Hdepth. lia.
  - inversion Hx as [ | | | | |lb rb b0 Hpb Hlb Hb|]; subst.
    inversion Hy as [ | | | | |lo ro o0 Hpo Hlo Ho|]; subst.
    simpl deep_merge. rewrite Hlb.
    rewrite (lookup_app_l_Some _ _ _ _ Hlo).
    destruct (merge_items_adequate (deep_merge depth) depth P h lo ro o)
      with (n := length ro) (i := 0%nat) (h := h ++ [ODict rb]) (rd := rb) (acc := b)
      as (h' & rd' & Hloop & Hpre & Hres & Hitems); try done.
    + simpl. by eapply Forall2_length.
    + apply preserved_alloc.
    + by rewrite lookup_app_r, Nat.sub_diag by lia.
    + eapply items_transfer; [|exact Hb]. apply Forall_forall.
      intros v _ r Hr. eapply repr_transfer; [|exact Hr].
      intros l obj Hl Hobj. split; [by left|]. by apply lookup_app_l_Some.
    + intros k v Hkv. rewrite drop_0 in Hkv. apply nesting_item in Hkv. lia.
    + rewrite Hloop. exists h'. split_and!; [done..|].
      rewrite drop_0, <- deep_merge_unfold in Hitems.
      apply (repr_dict _ _ _ rd'); [right; lia|done|].
      eapply items_transfer; [|exact Hitems]. apply Forall_forall.
      intros v _ r Hr. eapply repr_transfer; [|exact Hr].
      intros l obj Hl Hobj. split; [|done]. destruct Hl as [?|?]; [by left|right; lia].
Qed.

(** X18. [deep_merge] run on a store of mutable objects writes to its
    own copy only. Every object that was in the store before the call is
    in it unchanged afterwards, whatever the depth allowed and however
    the call ends; and when [base] and [override] hold mappings, the call
    completes within the nesting depth of [override], both arguments
    still hold the values they held, and the new object it returns holds
    the merged mapping. *)
Theorem deep_merge_writes_to_its_copy (h : heap) base override (b o : dict) :
  represents h base (VDict b) -> represents h override (VDict o) ->
  (forall depth, preserved h (fst (deep_merge depth base override h)))
  /\ exists h',
       deep_merge (nesting (VDict o)) base override h = (h', Ok (RObj (length h)))
       /\ h !! length h = None
       /\ represents h' base (VDict b)
       /\ represents h' override (VDict o)
       /\ represents h' (RObj (length h)) (VDict (Settings.deep_merge b o)).
Proof.
  intros Hb Ho. split.
  - intros depth. destruct (deep_merge depth base override h) as [h' r] eqn:Hrun.
    by eapply deep_merge_frame.
  - destruct (deep_merge_adequate (nesting (VDict o)) (fun l => (l < length h)%nat)
                h base override b o) as (h' & Hrun & Hpre & Hmerged); try done.
    + eapply repr_transfer; [|exact Hb]. intros l obj _ Hobj.
      split; [|done]. by apply lookup_lt_Some in Hobj.
    + eapply repr_transfer; [|exact Ho]. intros l obj _ Hobj.
      split; [|done]. by apply lookup_lt_Some in Hobj.
    + exists h'. split_and!; [done| | | |].
      * by apply lookup_ge_None.
      * eapply repr_transfer; [|exact Hb]. intros l obj _ Hobj. split; [done|]. by apply Hpre.
      * eapply repr_transfer; [|exact Ho]. intros l obj _ Hobj. split; [done|]. by apply Hpre.
      * eapply repr_transfer; [|exact Hmerged]. by intros l obj _ Hobj.
Qed.

End HeapAdequacy.

Lemma deep_merge_writes_to_its_copy_witness :
  let h : Heap.heap :=
    [Heap.ODict [(py "a", Heap.RObj 1)]; Heap.ODict [(py "x", Heap.RInt 1)];
     Heap.ODict [(py "a", Heap.RObj 3)]; Heap.ODict [(py "y", Heap.RInt 2)]] in
  let b := [(py "a", VDict [(py "x", VInt 1)])] in
  let o := [(py "a", VDict [(py "y", VInt 2)])] in
  Heap.represents h (Heap.RObj 0) (VDict b)
  /\ Heap.represents h (Heap.RObj 2) (VDict o)
  /\ exists h',
       Heap.deep_merge 2 (Heap.RObj 0) (Heap.RObj 2) h = (h', Ok (Heap.RObj 4))
       /\ Heap.represents h' (Heap.RObj 0) (VDict b)
       /\ Heap.represents h' (Heap.RObj 4)
            (VDict [(py "a", VDict [(py "x", VInt 1); (py "y", VInt 2)])]).
Proof.
  intros h b o.
  assert (Heap.represents h (Heap.RObj 0) (VDict b)) as Hb.
  { apply (Heap.repr_dict _ _ _ [(py "a", Heap.RObj 1)]); [done..|].
    repeat constructor.
    apply (Heap.repr_dict _ _ _ [(py "x", Heap.RInt 1)]); [done..|].
    repeat constructor. }
  assert (Heap.represents h (Heap.RObj 2) (VDict o)) as Ho.
  { apply (Heap.repr_dict _ _ _ [(py "a", Heap.RObj 3)]); [done..|].
    repeat constructor.
    apply (Heap.repr_dict _ _ _ [(py "y", Heap.RInt 2)]); [done..|].
    repeat constructor. }
  split; [exact Hb|]. split; [exact Ho|].
  destruct (deep_merge_writes_to_its_copy h _ _ b o Hb Ho)
    as (_ & h' & Hrun & _ & Hb' & _ & Hmerged).
  exists h'. split_and!; [exact Hrun|exact Hb'|exact Hmerged].
Defined.

(** ** From the sources to the fields *)

Section Precedence.
Implicit Types (env : environ) (fs : yaml_files) (sources data : dict).

Lemma apply_env_overrides_field env data section field (d : dict) v :
  wf_dict data = true ->
  dict_get section data = Some (VDict d) -> dict_get field d = Some v ->
  section <> py "database" \/ field <> py "password" ->
  exists d',
    dict_get section (_apply_env_overrides env data) = Some (VDict d')
    /\ dict_get field d' = Some v /\ NoDup d'.*1
    /\ NoDup (_apply_env_overrides env data).*1.
Proof.
  intros Hwf Hsection Hfield Hother.
  pose proof Hwf as [Hnd _]%wf_dict_iff.
  pose proof (wf_dict_get _ _ _ Hwf Hsection) as [Hd _]%wf_dict_iff.
  remember (_apply_env_overrides env data) as out eqn:Hout.
  unfold _apply_env_overrides, dict_contains in Hout.
  destruct (env !! py "DATABASE_PASSWORD") as [[|c pw]|].
  1, 3: subst out; by exists d.
  destruct (decide (section = py "database")) as [->|Hne].
  - destruct Hother as [?|Hfield']; [done|].
    rewrite Hsection in Hout. cbv beta iota zeta in Hout. rewrite Hsection in Hout.
    subst out. eexists. split_and!.
    + apply dict_get_set_eq.
    + by rewrite dict_get_set_ne.
    + by apply dict_set_NoDup.
    + by apply dict_set_NoDup.
  - destruct (dict_get (py "database") data) as [w|] eqn:Hdb.
    + cbv beta iota zeta in Hout. rewrite Hdb in Hout. exists d.
      destruct w; subst out; try done.
      split_and!; [by rewrite dict_get_set_ne|done..|by apply dict_set_NoDup].
    + cbv beta iota zeta in Hout. rewrite dict_get_set_eq in Hout. subst out.
      exists d. split_and!; [by rewrite !dict_get_set_ne|done..|].
      by do 2 apply dict_set_NoDup.
Qed.

(** X19. A value the YAML layers give for a field of a section is the
    value of the field, whatever the library's lower sources (the
    environment variables bound to the fields, the dotenv file) hold for
    it: when the merged configuration gives the section as a mapping
    with a non-mapping value for the field and the caller gives no such
    section, the construction reaches the schema and the field has the
    YAML value. [database.password] apart, which [DATABASE_PASSWORD]
    overrides. *)
Theorem yaml_field_over_sources sources env fs data (y d : dict) section field
    default v :
  wf_files fs -> wf_dict data = true ->
  load_merged_config env fs = Ok (VDict y) ->
  section ∈ [py "database"; py "api"; py "app"; py "logging"] ->
  dict_get section data = None ->
  dict_get section y = Some (VDict d) -> dict_get field d = Some v ->
  is_dict v = false ->
  section <> py "database" \/ field <> py "password" ->
  exists state,
    Settings_state sources env fs data = Ok state
    /\ section_field section field default state = Ok v.
Proof.
  intros Hfs Hwf Hy Hsection Hcaller Hsec Hfield Hleaf Hother.
  destruct (Settings_sections_mapping env fs data y Hy) as [data' Hsections].
  unfold Settings_state, Settings_data. rewrite Hsections. simpl.
  eexists. split; [done|].
  pose proof (Settings_sections_get _ _ _ _ _ section Hy Hsections) as Hget.
  rewrite Hcaller, bool_decide_eq_true_2, Hsec in Hget by done.
  apply Settings_sections_wf in Hsections; [|done..].
  destruct (apply_env_overrides_field env data' section field d v)
    as (d' & Hsec' & Hfield' & Hnd & Hnd'); [done..|].
  by apply (keyword_field_wins _ _ _ _ _ d').
Qed.

Lemma yaml_field_over_sources_witness :
  let fs : yaml_files :=
    {[py "base.yaml" :=
        File (Some (VDict [(py "api", VDict [(py "timeout", VInt 9)])]))]} in
  let env : environ := {[py "CONFIG_BASE_PATH" := py "base.yaml"]} in
  let sources := [(py "api", VDict [(py "timeout", VInt 1)])] in
  exists state,
    Settings_state sources env fs [] = Ok state
    /\ section_field (py "api") (py "timeout") (VInt 5000) state = Ok (VInt 9).
Proof.
  intros fs env sources.
  apply (yaml_field_over_sources sources env fs []
           [(py "api", VDict [(py "timeout", VInt 9)])]
           [(py "timeout", VInt 9)]).
  - apply map_Forall_singleton. by vm_compute.
  - reflexivity.
  - by vm_compute.
  - apply (bool_decide_unpack _). by vm_compute.
  - reflexivity.
  - reflexivity.
  - reflexivity.
  - reflexivity.
  - left. intros Heq. vm_compute in Heq. discriminate Heq.
Defined.

(** X20. A base YAML file that holds a sequence is dropped without a
    word: with no environment layer and none of the section names among
    its items, [load_merged_config] returns the sequence and
    [Settings.__init__] takes nothing from it, handing the schema the
    caller's data with only the password override applied. *)
Theorem sequence_layer_ignored env fs data (base_path : pystr) (x : value)
    (items : list value) :
  env !! py "CONFIG_BASE_PATH" = Some base_path -> base_path <> [] ->
  env !! py "CONFIG_ENV_PATH" = None ->
  fs !! base_path = Some (File (Some (VList (x :: items)))) ->
  (forall section, VStr section ∈ x :: items ->
     section ∉ [py "database"; py "api"; py "app"; py "logging"]) ->
  load_merged_config env fs = Ok (VList (x :: items))
  /\ Settings_data env fs data = Ok (_apply_env_overrides env data).
Proof.
  intros Hbase Hne Henv Hfile Hitems.
  assert (load_merged_config env fs = Ok (VList (x :: items))) as Hy.
  { unfold load_merged_config, getenv. rewrite Hbase, Henv.
    destruct base_path as [|c base_path]; [done|]. simpl. by rewrite Hfile. }
  split; [done|].
  assert (forall section d,
            section ∈ [py "database"; py "api"; py "app"; py "logging"] ->
            adopt_section (VList (x :: items)) section d = Ok d) as Hadopt.
  { intros section d Hsection. unfold adopt_section.
    destruct (existsb _ (x :: items)) eqn:Hex; [|done].
    apply existsb_exists in Hex as (w & Hin%list_elem_of_In & Hw).
    destruct w as [| | |s| | |]; try done. apply bool_decide_eq_true in Hw as ->.
    by destruct (Hitems section Hin). }
  unfold Settings_data, Settings_sections. rewrite Hy. cbn [bind].
  change (truthy (VList (x :: items))) with true. cbv iota.
  rewrite (Hadopt (py "database")) by (rewrite !elem_of_cons; auto). cbn [bind].
  rewrite (Hadopt (py "api")) by (rewrite !elem_of_cons; auto). cbn [bind].
  rewrite (Hadopt (py "app")) by (rewrite !elem_of_cons; auto). cbn [bind].
  by rewrite (Hadopt (py "logging")) by (rewrite !elem_of_cons; auto).
Qed.

Lemma sequence_layer_ignored_witness :
  let fs : yaml_files :=
    {[py "base.yaml" := File (Some (VList [VStr (py "app"); VInt 1]))]} in
  let env : environ := {[py "CONFIG_BASE_PATH" := py "base.yaml"]} in
  Settings_data env fs [] = Raise TypeError
  /\ Settings_data env (<[py "base.yaml" := File (Some (VList [VInt 1]))]> fs) []
     = Ok [].
Proof.
  intros fs env. split; [by vm_compute|].
  assert (forall section, VStr section ∈ [VInt 1] ->
            section ∉ [py "database"; py "api"; py "app"; py "logging"]) as Hitems.
  { intros section [Heq|Hin%elem_of_nil]%elem_of_cons; [discriminate Heq|done]. }
  assert (py "base.yaml" <> []) as Hne by (intros Heq; vm_compute in Heq; discriminate Heq).
  exact (proj2 (sequence_layer_ignored env
                  (<[py "base.yaml" := File (Some (VList [VInt 1]))]> fs) []
                  (py "base.yaml") (VInt 1) [] eq_refl Hne eq_refl eq_refl Hitems)).
Defined.



End Precedence.

(** ** When load_dotenv fails *)

Section DotenvErrors.
Implicit Types (env : environ) (lines : list pystr).

(** X15. [load_dotenv] fails only on a binding the operating system
    refuses. On a file in which every bound key is non-empty and neither
    keys nor values hold NUL, the load completes, whatever the
    environment; a line that binds the empty name, as [=value] does,
    makes it raise when reached, and so does a path that names a
    directory. *)
Theorem load_dotenv_completes (fs : gmap pystr (entry (list pystr)))
    (env_file : pystr) lines env :
  fs !! env_file = Some (File lines) ->
  (forall key v, (key, v) ∈ omap parse_line lines ->
     key <> [] /\ contains_char 0 key = false /\ contains_char 0 v = false) ->
  (exists env', load_dotenv fs env_file env = Ok env')
  /\ (forall line v env0, parse_line line = Some ([], v) -> env0 !! [] = None ->
        exists e, load_line env0 line = Raise e)
  /\ (forall env0, exists e,
        load_dotenv (<[env_file := Directory]> fs) env_file env0 = Raise e).
Proof.
  intros Hfile Hlegal. split_and!.
  - unfold load_dotenv. rewrite Hfile. apply load_lines_total.
    intros key v Hin. destruct (Hlegal key v Hin) as (? & ? & ?). by split_and!.
  - intros line v env0 Hline Hunset. unfold load_line, setdefault, putenv.
    rewrite Hline, Hunset. simpl. destruct (contains_char 0 v); by eexists.
  - intros env0. unfold load_dotenv. rewrite lookup_insert_eq. by eexists.
Qed.

Lemma load_dotenv_completes_witness :
  let fs : gmap pystr (entry (list pystr)) :=
    {[py ".env" := File [py "A=1"; py "# note"; py "B = two words"]]} in
  exists env', load_dotenv fs (py ".env") {[py "A" := py "0"]} = Ok env'.
Proof.
  intros fs.
  destruct (load_dotenv_completes fs (py ".env")
              [py "A=1"; py "# note"; py "B = two words"] {[py "A" := py "0"]})
    as (Hruns & _); [reflexivity| |exact Hruns].
  intros key v Hin. vm_compute in Hin.
  apply elem_of_cons in Hin as [Heq|Hin]; [injection Heq as -> ->; by vm_compute|].
  apply elem_of_cons in Hin as [Heq|Hin]; [injection Heq as -> ->; by vm_compute|].
  by apply elem_of_nil in Hin.
Defined.

End DotenvErrors.
